(** * Descriptive statistics of the video-game-sales dashboard (app.py)

    A shallow embedding of the computational core of [app.py]: the
    statistics of [show_metrics], the per-region insights of
    [box_plot_chart], the correlation of [scatter_chart], the trend of
    [sales_over_time_chart], the insights of [histogram_chart] and the
    totals of [pie_chart] and [regional_sales_by_genre_chart].  Widgets,
    charts and page layout are left out; every [st.write] branch is represented by the label of the
    sentence it prints.

    Numbers.  A pandas column of sales is a sequence of binary64 values in
    which a missing cell is NaN.  The code is written once over an
    interface [PyFloat] of the operations it uses, and is read in two
    arithmetics:
    - [float_arith]: Rocq's primitive binary64 floats, bit for bit what
      Python computes for [+ - * / sqrt] and the comparisons;
    - [exact_arith]: rationals extended with NaN, the documented
      (mathematical) meaning of the pandas, numpy and scipy calls, with no
      rounding and no overflow; order laws between statistics are proved
      there.

    The library calls are embedded from their documented behaviour:
    pandas reductions skip NaN and use [ddof = 1]; [np.percentile] uses
    the default "linear" method of numpy's [_quantile] and yields NaN as
    soon as the input holds one; [Series.quantile] masks NaN and calls
    [np.percentile] on [q * 100]; [scipy.stats.pearsonr] is that of
    scipy up to 1.13: it checks lengths and constant inputs, and its
    norms reject NaN and infinite values, before it computes r.

    Sums are accumulated from the left.  numpy adds pairwise from eight
    values on and pandas' GroupBy adds with a compensated sum, so on
    longer columns a sum of the model and the library's can differ in
    the last bits: what is stated of binary64 below depends on the value
    of a rounded sum only on shorter inputs, and otherwise on
    comparisons, signs, NaN and single operations.  What is proved in
    exact arithmetic is a statement about the formulas, not about the
    rounded values that Python prints. *)

From Stdlib Require Import ZArith QArith Qround Lqa Lia Bool String List.
From Stdlib Require Import Sorting.Sorted Sorting.Permutation.
From Stdlib Require Import Floats.
From Stdlib Require Uint63.
From Stdlib Require OrderedTypeEx.
Import ListNotations.

Set Implicit Arguments.
Set Warnings "-inexact-float".

(* ================================================================== *)
(** * Python values: exceptions and results *)
(* ================================================================== *)

(** A raised Python exception: the name of its class and its message. *)
Record PyExc : Type := mkExc { exc_class : string; exc_msg : string }.

Definition IndexError (msg : string) : PyExc := mkExc "IndexError" msg.
Definition ValueError (msg : string) : PyExc := mkExc "ValueError" msg.

(** The outcome of a call: a value, or an exception that unwinds it. *)
Inductive result (A : Type) : Type :=
| Ok (a : A)
| Raise (e : PyExc).
Arguments Ok {A} a.
Arguments Raise {A} e.

Definition bind {A B : Type} (r : result A) (k : A -> result B) : result B :=
  match r with
  | Ok a => k a
  | Raise e => Raise e
  end.

Notation "x <- r ;; k" := (bind r (fun x => k))
  (at level 61, r at next level, right associativity).

(** [raises cls r]: the call ended with an exception of class [cls]. *)
Definition raises {A : Type} (cls : string) (r : result A) : Prop :=
  exists msg, r = Raise (mkExc cls msg).

(* ================================================================== *)
(** * The arithmetic interface *)
(* ================================================================== *)

Class PyFloat (F : Type) : Type := {
  fadd : F -> F -> F;
  fsub : F -> F -> F;
  fmul : F -> F -> F;
  fdiv : F -> F -> F;
  fsqrt : F -> F;
  fltb : F -> F -> bool;          (* x < y  *)
  fleb : F -> F -> bool;          (* x <= y *)
  feqb : F -> F -> bool;          (* x == y *)
  fnan : F;                       (* np.nan *)
  fisnan : F -> bool;             (* np.isnan / Series.isnull *)
  of_int : Z -> F;                (* float(n) *)
  ffloor : F -> Z                 (* int(np.floor(x)) *)
}.

(* ------------------------------------------------------------------ *)
(** ** Binary64 *)

Definition float_of_Z (n : Z) : float :=
  if (n <? 0)%Z
  then PrimFloat.opp (PrimFloat.of_uint63 (Uint63.of_Z (- n)))
  else PrimFloat.of_uint63 (Uint63.of_Z n).

(** Floor of a finite float, read off its mantissa and exponent. *)
Definition float_floor (x : float) : Z :=
  match Prim2SF x with
  | S754_finite s m e => Z.shiftl (if s then Z.neg m else Z.pos m) e
  | _ => 0%Z
  end.

#[export] Instance float_arith : PyFloat float := {
  fadd := PrimFloat.add;
  fsub := PrimFloat.sub;
  fmul := PrimFloat.mul;
  fdiv := PrimFloat.div;
  fsqrt := PrimFloat.sqrt;
  fltb := PrimFloat.ltb;
  fleb := PrimFloat.leb;
  feqb := PrimFloat.eqb;
  fnan := PrimFloat.nan;
  fisnan := PrimFloat.is_nan;
  of_int := float_of_Z;
  ffloor := float_floor
}.

(* ------------------------------------------------------------------ *)
(** ** Exact rationals with NaN *)

Inductive xnum : Type :=
| XNaN
| XFin (q : Q).

Definition xlift2 (f : Q -> Q -> Q) (a b : xnum) : xnum :=
  match a, b with
  | XFin p, XFin q => XFin (f p q)
  | _, _ => XNaN
  end.

(** Division: [0/0] is NaN as in IEEE; this arithmetic has no infinities,
    so any other division by zero is NaN as well. *)
Definition xdiv (a b : xnum) : xnum :=
  match a, b with
  | XFin p, XFin q => if Qeq_bool q 0 then XNaN else XFin (p / q)
  | _, _ => XNaN
  end.

Definition xcmp (f : Q -> Q -> bool) (a b : xnum) : bool :=
  match a, b with
  | XFin p, XFin q => f p q
  | _, _ => false
  end.

Definition Qlt_bool (p q : Q) : bool := negb (Qle_bool q p).

Definition xisnan (a : xnum) : bool :=
  match a with XNaN => true | XFin _ => false end.

Definition xfloor (a : xnum) : Z :=
  match a with XNaN => 0%Z | XFin q => Qfloor q end.

(** The exact arithmetic has no square root of its own: it is taken as a
    parameter, and the order laws hold whatever it is. *)
Definition exact_arith (sq : xnum -> xnum) : PyFloat xnum := {|
  fadd := xlift2 Qplus;
  fsub := xlift2 Qminus;
  fmul := xlift2 Qmult;
  fdiv := xdiv;
  fsqrt := sq;
  fltb := xcmp Qlt_bool;
  fleb := xcmp Qle_bool;
  feqb := xcmp Qeq_bool;
  fnan := XNaN;
  fisnan := xisnan;
  of_int := fun n => XFin (inject_Z n);
  ffloor := xfloor
|}.

(* ================================================================== *)
(** * The data set *)
(* ================================================================== *)

(** One row of [videogamesales.csv]; a missing number is NaN. *)
Record SalesRecord (F : Type) : Type := mkRecord {
  Platform : string;
  Genre : string;
  Publisher : string;
  Year : F;
  NA_Sales : F;
  EU_Sales : F;
  JP_Sales : F;
  Other_Sales : F;
  Global_Sales : F
}.

(** The keys of [region_mapping]. *)
Inductive Region : Type :=
| Global_Sales_region   (* "Global Sales" *)
| NA_Sales_region       (* "NA Sales" *)
| EU_Sales_region       (* "EU Sales" *)
| JP_Sales_region       (* "JP Sales" *)
| Other_Sales_region.   (* "Other Sales" *)

(** [region_mapping[region]], as the accessor of the column it names. *)
Definition region_mapping {F : Type} (region : Region) : SalesRecord F -> F :=
  match region with
  | Global_Sales_region => @Global_Sales F
  | NA_Sales_region => @NA_Sales F
  | EU_Sales_region => @EU_Sales F
  | JP_Sales_region => @JP_Sales F
  | Other_Sales_region => @Other_Sales F
  end.

(** [data[column]]: the column as a sequence, in row order. *)
Definition column {F : Type} (col : SalesRecord F -> F)
  (data : list (SalesRecord F)) : list F :=
  map col data.

(* ================================================================== *)
(** * The labels of the printed insights *)
(* ================================================================== *)

(** [show_metrics], "1. Spread Insights": "quite wide" or
    "relatively consistent". *)
Inductive SpreadInsight : Type := Wide | Consistent.

(** [show_metrics], "3. Outliers Insights": "[n] potential outliers" or
    "No significant outliers detected". *)
Inductive OutlierInsight : Type :=
| OutliersPresent (count : nat)
| NoOutliers.

(** [box_plot_chart], spread explanation: "quite wide" or
    "relatively narrow". *)
Inductive BoxSpreadInsight : Type := BoxWide | BoxNarrow.

(** [scatter_chart]: "strong", "moderate", "weak", and
    "little to no correlation". *)
Inductive CorrelationInsight : Type := Strong | Moderate | Weak | Negligible.

(** [sales_over_time_chart]: "increasing trend", "decreasing trend",
    "relatively stable". *)
Inductive TrendInsight : Type := Increasing | Decreasing | Stable.

(* ================================================================== *)
(** * The statistics engine, over any arithmetic *)
(* ================================================================== *)

Section Engine.

Context {F : Type} {A : PyFloat F}.

(** A decimal literal [n/d] of the source, such as [1.5] or [0.75]: in
    binary64 the correctly rounded quotient of two small integers is the
    float the literal denotes. *)
Definition dec (n : Z) (d : positive) : F :=
  fdiv (of_int n) (of_int (Z.pos d)).

(** [len(xs)] as a number. *)
Definition flen (xs : list F) : F := of_int (Z.of_nat (length xs)).

(** [Series.dropna()]. *)
Definition dropna (xs : list F) : list F :=
  filter (fun x => negb (fisnan x)) xs.

(** [values.sum()], accumulated from the left. *)
Definition fsum (xs : list F) : F := fold_left fadd xs (of_int 0).

(** ** Sorting ([np.sort], [ndarray.partition]) *)

Fixpoint insert (x : F) (l : list F) : list F :=
  match l with
  | [] => [x]
  | y :: t => if fleb x y then x :: l else y :: insert x t
  end.

Fixpoint sort (l : list F) : list F :=
  match l with
  | [] => []
  | x :: t => insert x (sort t)
  end.

(** [arr[i]] with Python's negative indices. *)
Definition py_index (arr : list F) (i : Z) : F :=
  let j := if (i <? 0)%Z then (Z.of_nat (length arr) + i)%Z else i in
  nth (Z.to_nat j) arr fnan.

(** ** pandas reductions (NaN skipped) *)

(** [Series.mean()]. *)
Definition mean (xs : list F) : F :=
  let v := dropna xs in
  match v with
  | [] => fnan
  | _ => fdiv (fsum v) (flen v)
  end.

(** [Series.median()]: the middle value, or the mean of the two middle
    values. *)
Definition median (xs : list F) : F :=
  let v := sort (dropna xs) in
  let n := length v in
  match n with
  | O => fnan
  | _ =>
      if Nat.even n
      then fdiv (fadd (nth (n / 2 - 1) v fnan) (nth (n / 2) v fnan)) (of_int 2)
      else nth (n / 2) v fnan
  end.

(** [Series.var()], [ddof = 1]: NaN unless there are two values. *)
Definition var (xs : list F) : F :=
  let v := dropna xs in
  let count := length v in
  if (count <=? 1)%nat then fnan
  else
    let avg := fdiv (fsum v) (flen v) in
    let sqr := map (fun x => fmul (fsub avg x) (fsub avg x)) v in
    fdiv (fsum sqr) (of_int (Z.of_nat count - 1)).

(** [Series.std()]. *)
Definition std (xs : list F) : F := fsqrt (var xs).

(** [Series.min()] and [Series.max()]. *)
Definition series_min (xs : list F) : F :=
  match dropna xs with
  | [] => fnan
  | x :: t => fold_left (fun m y => if fltb y m then y else m) t x
  end.

Definition series_max (xs : list F) : F :=
  match dropna xs with
  | [] => fnan
  | x :: t => fold_left (fun m y => if fltb m y then y else m) t x
  end.

(** [Series.mode()]: the most frequent values, sorted. *)
Definition count_eq (x : F) (v : list F) : nat :=
  length (filter (feqb x) v).

Fixpoint unique (l : list F) : list F :=
  match l with
  | [] => []
  | x :: t => x :: filter (fun y => negb (feqb x y)) (unique t)
  end.

Definition mode (xs : list F) : list F :=
  let v := dropna xs in
  let top := list_max (map (fun y => count_eq y v) v) in
  sort (unique (filter (fun y => (count_eq y v =? top)%nat) v)).

(** [.values[0]]. *)
Definition first_value (values : list F) : result F :=
  match values with
  | [] => Raise (IndexError "index 0 is out of bounds for axis 0 with size 0")
  | x :: _ => Ok x
  end.

(** [Series.diff()]: the first entry is NaN, entry [i] is [x[i] - x[i-1]]. *)
Fixpoint diff_from (prev : F) (xs : list F) : list F :=
  match xs with
  | [] => []
  | x :: t => fsub x prev :: diff_from x t
  end.

Definition diff (xs : list F) : list F :=
  match xs with
  | [] => []
  | x :: t => fnan :: diff_from x t
  end.

(** ** [np.percentile] (method "linear") and [Series.quantile] *)

(** numpy's [_lerp]. *)
Definition _lerp (a b t : F) : F :=
  let diff_b_a := fsub b a in
  if fleb (dec 5 10) t
  then fsub b (fmul diff_b_a (fsub (of_int 1) t))
  else fadd a (fmul diff_b_a t).

(** numpy's [_quantile] on a one-dimensional array and one quantile in
    [0, 1]: virtual index [(n - 1) * q], its two neighbours (both the last
    element once the index reaches [n - 1]), and their interpolation; NaN
    when the array holds a NaN. *)
Definition _quantile (arr : list F) (quantile : F) : F :=
  let values_count := Z.of_nat (length arr) in
  let virtual_index := fmul (of_int (values_count - 1)) quantile in
  let above := fleb (of_int (values_count - 1)) virtual_index in
  let below := fltb virtual_index (of_int 0) in
  let lost := fisnan virtual_index in
  let previous_index :=
    if lost then (-1)%Z else if below then 0%Z else if above then (-1)%Z
    else ffloor virtual_index in
  let next_index :=
    if lost then (-1)%Z else if below then 0%Z else if above then (-1)%Z
    else (ffloor virtual_index + 1)%Z in
  let sorted := sort arr in
  let gamma := fsub virtual_index (of_int previous_index) in
  if existsb fisnan arr then fnan
  else _lerp (py_index sorted previous_index) (py_index sorted next_index) gamma.

(** [np.percentile(a, q)]. *)
Definition np_percentile (a : list F) (q : F) : F :=
  _quantile a (fdiv q (of_int 100)).

(** [Series.quantile(q)]: NaN masked out, then [np.percentile] of
    [q * 100]. *)
Definition quantile (xs : list F) (q : F) : F :=
  match dropna xs with
  | [] => fnan
  | v => np_percentile v (fmul q (of_int 100))
  end.

End Engine.

(* ================================================================== *)
(** * The functions of app.py *)
(* ================================================================== *)

(** What [show_metrics] computes before it prints, and the branch taken
    by its spread and outlier insights.  [Series.skew()] needs powers,
    which the arithmetic interface does not have: the skewness is left
    out of the record, and the chain that reads it is [skew_insight]
    below. *)
Record Metrics (F : Type) : Type := mkMetrics {
  mean_sales : F;
  median_sales : F;
  mode_sales : F;
  std_sales : F;
  var_sales : F;
  min_sales : F;
  max_sales : F;
  range_sales : F;
  percentiles : F * F * F;
  Q1 : F;
  Q3 : F;
  IQR : F;
  lower_bound : F;
  upper_bound : F;
  outliers : list F;
  spread_insight : SpreadInsight;
  outlier_insight : OutlierInsight
}.

(** What one turn of the loop of [box_plot_chart] computes and prints. *)
Record BoxInsights (F : Type) : Type := mkBox {
  box_median_sales : F;
  iqr_sales : F;
  box_min_sales : F;
  box_max_sales : F;
  box_outliers : nat;
  box_spread : BoxSpreadInsight
}.

Section App.

Context {F : Type} {A : PyFloat F}.

(** ** show_metrics *)

(** Lines 105-108: [if std_sales > 1]. *)
Definition spread_of (std_sales : F) : SpreadInsight :=
  if fltb (of_int 1) std_sales then Wide else Consistent.

(** Lines 119-122: [if not outliers.empty]. *)
Definition outliers_of (outliers : list F) : OutlierInsight :=
  match outliers with
  | [] => NoOutliers
  | _ => OutliersPresent (length outliers)
  end.

(** Lines 52-73 and the insights of lines 105-122, on the selected
    column. *)
Definition show_metrics_on (sales_data : list F) : result (Metrics F) :=
  let mean_sales := mean sales_data in
  let median_sales := median sales_data in
  mode_sales <- first_value (mode sales_data) ;;
  let std_sales := std sales_data in
  let var_sales := var sales_data in
  let min_sales := series_min sales_data in
  let max_sales := series_max sales_data in
  let range_sales := fsub max_sales min_sales in
  let percentiles :=
    (np_percentile sales_data (of_int 25),
     np_percentile sales_data (of_int 50),
     np_percentile sales_data (of_int 75)) in
  let Q1 := np_percentile sales_data (of_int 25) in
  let Q3 := np_percentile sales_data (of_int 75) in
  let IQR := fsub Q3 Q1 in
  let lower_bound := fsub Q1 (fmul (dec 15 10) IQR) in
  let upper_bound := fadd Q3 (fmul (dec 15 10) IQR) in
  let outliers :=
    filter (fun v => fltb v lower_bound || fltb upper_bound v) sales_data in
  Ok (mkMetrics mean_sales median_sales mode_sales std_sales var_sales
        min_sales max_sales range_sales percentiles Q1 Q3 IQR
        lower_bound upper_bound outliers
        (spread_of std_sales) (outliers_of outliers)).

Definition show_metrics (data : list (SalesRecord F))
  (selected_region : Region) : result (Metrics F) :=
  show_metrics_on (column (region_mapping selected_region) data).

(** ** box_plot_chart *)

(** Lines 439-448: [if iqr_sales > 1]. *)
Definition box_spread_of (iqr_sales : F) : BoxSpreadInsight :=
  if fltb (of_int 1) iqr_sales then BoxWide else BoxNarrow.

(** Lines 412-448: the body of the loop, on the column of one region. *)
Definition box_plot_region_on (col : list F) : BoxInsights F :=
  let region_sales := dropna col in
  let median_sales := median region_sales in
  let iqr_sales :=
    fsub (quantile region_sales (dec 75 100))
         (quantile region_sales (dec 25 100)) in
  let min_sales := series_min region_sales in
  let max_sales := series_max region_sales in
  let outliers :=
    length
      (filter
         (fun v =>
            fltb v (fsub (quantile region_sales (dec 25 100))
                         (fmul (dec 15 10) iqr_sales))
            || fltb (fadd (quantile region_sales (dec 75 100))
                          (fmul (dec 15 10) iqr_sales)) v)
         region_sales) in
  mkBox median_sales iqr_sales min_sales max_sales outliers
        (box_spread_of iqr_sales).

Definition box_plot_chart (data : list (SalesRecord F))
  (selected_regions : list Region) : list (BoxInsights F) :=
  map (fun region => box_plot_region_on (column (region_mapping region) data))
      selected_regions.

(** The two fences the loop compares against (lines 417-418). *)
Definition box_lower_fence (col : list F) : F :=
  let region_sales := dropna col in
  fsub (quantile region_sales (dec 25 100))
       (fmul (dec 15 10) (iqr_sales (box_plot_region_on col))).

Definition box_upper_fence (col : list F) : F :=
  let region_sales := dropna col in
  fadd (quantile region_sales (dec 75 100))
       (fmul (dec 15 10) (iqr_sales (box_plot_region_on col))).

(** ** scatter_chart *)

(** [np.sign]. *)
Definition sign (d : F) : F :=
  if fisnan d then fnan
  else if fltb (of_int 0) d then of_int 1
  else if fltb d (of_int 0) then of_int (-1)
  else of_int 0.

(** Python's [min(a, b)] and [max(a, b)]: the first argument unless the
    second is strictly better. *)
Definition py_min (a b : F) : F := if fltb b a then b else a.
Definition py_max (a b : F) : F := if fltb a b then b else a.

(** [np.isfinite], through the interface: a finite number minus itself
    is 0, while [inf - inf] and [nan - nan] are NaN. *)
Definition isfinite (v : F) : bool := feqb (fsub v v) (of_int 0).

(** [scipy.stats.pearsonr(x, y)[0]], scipy up to 1.13.  The norms are
    [scipy.linalg.norm], which first runs [np.asarray_chkfinite] and then
    BLAS [nrm2]; the latter is taken as the square root of the sum of
    the squares. *)
Definition pearsonr (x y : list F) : result F :=
  let n := length x in
  if negb (n =? length y)%nat
  then Raise (ValueError "x and y must have the same length.")
  else if (n <? 2)%nat
  then Raise (ValueError "x and y must have length at least 2.")
  else if forallb (fun v => feqb v (nth 0 x fnan)) x
          || forallb (fun v => feqb v (nth 0 y fnan)) y
  then Ok fnan
  else if (n =? 2)%nat
  then Ok (fmul (sign (fsub (nth 1 x fnan) (nth 0 x fnan)))
                (sign (fsub (nth 1 y fnan) (nth 0 y fnan))))
  else
    let xmean := fdiv (fsum x) (flen x) in
    let ymean := fdiv (fsum y) (flen y) in
    let xm := map (fun v => fsub v xmean) x in
    let ym := map (fun v => fsub v ymean) y in
    if negb (forallb isfinite xm) || negb (forallb isfinite ym)
    then Raise (ValueError "array must not contain infs or NaNs")
    else
    let normxm := fsqrt (fsum (map (fun v => fmul v v) xm)) in
    let normym := fsqrt (fsum (map (fun v => fmul v v) ym)) in
    let r :=
      fsum (map (fun p => fmul (fdiv (fst p) normxm) (fdiv (snd p) normym))
                (combine xm ym)) in
    Ok (py_max (py_min r (of_int 1)) (of_int (-1))).

(** Lines 497-531: the chain of [if correlation > ...]. *)
Definition correlation_insight (correlation : F) : CorrelationInsight :=
  if fltb (dec 75 100) correlation then Strong
  else if fltb (dec 5 10) correlation then Moderate
  else if fltb (dec 3 10) correlation then Weak
  else Negligible.

(** Lines 477-531: the two columns, their correlation, the insight. *)
Definition scatter_chart (data : list (SalesRecord F))
  (region_x region_y : Region) : result (F * CorrelationInsight) :=
  let x_data := column (region_mapping region_x) data in
  let y_data := column (region_mapping region_y) data in
  correlation <- pearsonr x_data y_data ;;
  Ok (correlation, correlation_insight correlation).

(** ** sales_over_time_chart *)

(** Line 202: [.diff().mean()] of the sales column. *)
Definition sales_trend_of (sales : list F) : F := mean (diff sales).

(** Lines 205-225: [if sales_trend > 0 ... elif sales_trend < 0 ... else]. *)
Definition trend_insight (sales_trend : F) : TrendInsight :=
  if fltb (of_int 0) sales_trend then Increasing
  else if fltb sales_trend (of_int 0) then Decreasing
  else Stable.

(** Line 187: [data[['Year', column]].dropna()]. *)
Definition filtered_data (data : list (SalesRecord F))
  (selected_region : Region) : list (SalesRecord F) :=
  filter (fun row => negb (fisnan (Year row))
                     && negb (fisnan (region_mapping selected_region row)))
         data.

(** Lines 182-225.  [None] is the early return after the warning
    "No 'Year' data available in the dataset."; the columns of
    [SalesRecord] are fixed, so the test that 'Year' is a column always
    passes. *)
Definition sales_over_time_chart (data : list (SalesRecord F))
  (selected_region : Region) : option (F * TrendInsight) :=
  if forallb (fun row => fisnan (Year row)) data then None
  else
    let sales_trend :=
      sales_trend_of
        (column (region_mapping selected_region)
                (filtered_data data selected_region)) in
    Some (sales_trend, trend_insight sales_trend).

End App.

(* ================================================================== *)
(** * The specification's reading of the trend *)
(* ================================================================== *)

Section TrendSpec.

Context {F : Type} {A : PyFloat F}.

(** The rows in ascending year order (a stable insertion sort on [Year]). *)
Fixpoint insert_by_year (row : SalesRecord F) (rows : list (SalesRecord F))
  : list (SalesRecord F) :=
  match rows with
  | [] => [row]
  | r :: t =>
      if fleb (Year row) (Year r) then row :: rows
      else r :: insert_by_year row t
  end.

Fixpoint sort_by_year (rows : list (SalesRecord F)) : list (SalesRecord F) :=
  match rows with
  | [] => []
  | r :: t => insert_by_year r (sort_by_year t)
  end.

(** The rows come in ascending year order. *)
Definition ascending_years (rows : list (SalesRecord F)) : Prop :=
  StronglySorted (fun r1 r2 => fleb (Year r1) (Year r2) = true) rows.

(** "Mean first-difference of the value sequence in ascending year
    order", over the rows that have both a year and a sales figure. *)
Definition trend_in_year_order (data : list (SalesRecord F))
  (selected_region : Region) : F :=
  mean (diff (column (region_mapping selected_region)
                     (sort_by_year (filtered_data data selected_region)))).

End TrendSpec.

(* ================================================================== *)
(** * Vocabulary of the proofs and of the examples *)
(* ================================================================== *)

(** A row that only carries a year and one sales figure. *)
Definition year_row {F : Type} (year sales : F) : SalesRecord F :=
  mkRecord ""%string ""%string ""%string year sales sales sales sales sales.

(** The exact arithmetic in which the square root is left as it is; the
    examples of the order laws are computed in it. *)
Definition exact_plain : PyFloat xnum := exact_arith (fun a => a).

(** A float that is neither NaN nor infinite. *)
Definition finite (x : float) : Prop := PrimFloat.is_finite x = true.

(** The four outcomes of comparing two floats. *)
Inductive float_order (x y : float) : Prop :=
| order_unordered :
    PrimFloat.is_nan x = true \/ PrimFloat.is_nan y = true ->
    PrimFloat.ltb x y = false -> PrimFloat.leb x y = false ->
    PrimFloat.eqb x y = false ->
    PrimFloat.ltb y x = false -> PrimFloat.leb y x = false ->
    float_order x y
| order_lt :
    PrimFloat.is_nan x = false -> PrimFloat.is_nan y = false ->
    PrimFloat.ltb x y = true -> PrimFloat.leb x y = true ->
    PrimFloat.eqb x y = false ->
    PrimFloat.ltb y x = false -> PrimFloat.leb y x = false ->
    float_order x y
| order_eq :
    PrimFloat.is_nan x = false -> PrimFloat.is_nan y = false ->
    PrimFloat.ltb x y = false -> PrimFloat.leb x y = true ->
    PrimFloat.eqb x y = true ->
    PrimFloat.ltb y x = false -> PrimFloat.leb y x = true ->
    float_order x y
| order_gt :
    PrimFloat.is_nan x = false -> PrimFloat.is_nan y = false ->
    PrimFloat.ltb x y = false -> PrimFloat.leb x y = false ->
    PrimFloat.eqb x y = false ->
    PrimFloat.ltb y x = true -> PrimFloat.leb y x = true ->
    float_order x y.

(** A float's place in the order: class, then exponent, then mantissa. *)
Definition SFkey (a : spec_float) : Z * Z * Z :=
  match a with
  | S754_nan => (0, 0, 0)%Z
  | S754_infinity s => (if s then -2 else 2, 0, 0)%Z
  | S754_zero _ => (0, 0, 0)%Z
  | S754_finite s m e => if s then (-1, - e, Z.neg m)%Z else (1, e, Z.pos m)%Z
  end.

Definition key_lt (k1 k2 : Z * Z * Z) : Prop :=
  let '(a1, b1, c1) := k1 in
  let '(a2, b2, c2) := k2 in
  (a1 < a2 \/ (a1 = a2 /\ (b1 < b2 \/ (b1 = b2 /\ c1 < c2))))%Z.

(** Insertion sort on rationals, the image of [sort] on finite values. *)
Fixpoint qinsert (x : Q) (l : list Q) : list Q :=
  match l with
  | [] => [x]
  | y :: t => if Qle_bool x y then x :: l else y :: qinsert x t
  end.

Fixpoint qsort (l : list Q) : list Q :=
  match l with
  | [] => []
  | x :: t => qinsert x (qsort t)
  end.

(* ================================================================== *)
(** * The other pages of app.py *)
(* ================================================================== *)

(** The rest of the computations of [app.py]: the choice of the second
    region of [scatter_chart], the insights of [histogram_chart], the
    points plotted by [box_plot_chart], the platform totals of
    [pie_chart] and the genre totals of
    [regional_sales_by_genre_chart]. *)

Definition KeyError (msg : string) : PyExc := mkExc "KeyError" msg.

(** [list(region_mapping.keys())], in the order of the dictionary. *)
Definition region_keys : list Region :=
  [Global_Sales_region; NA_Sales_region; EU_Sales_region;
   JP_Sales_region; Other_Sales_region].

Definition Region_eqb (a b : Region) : bool :=
  match a, b with
  | Global_Sales_region, Global_Sales_region => true
  | NA_Sales_region, NA_Sales_region => true
  | EU_Sales_region, EU_Sales_region => true
  | JP_Sales_region, JP_Sales_region => true
  | Other_Sales_region, Other_Sales_region => true
  | _, _ => false
  end.

(** [scatter_chart], line 473: the regions offered for the Y axis. *)
Definition remaining_regions (region_x : Region) : list Region :=
  filter (fun region => negb (Region_eqb region region_x)) region_keys.

(** [histogram_chart], lines 338-355: "positively skewed" (mean above
    median), "negatively skewed" (mean below median), "symmetrical". *)
Inductive MeanMedianInsight : Type := MeanAbove | MeanBelow | MeanEqual.

(** [histogram_chart], line 359: the spread is "high" or "low". *)
Inductive HistogramSpread : Type := High | Low.

(** [show_metrics], lines 111-116, and [histogram_chart], lines 365-370:
    "positively skewed", "negatively skewed", and "symmetrically
    distributed" / "no skew". *)
Inductive SkewInsight : Type := PositiveSkew | NegativeSkew | NoSkew.

(** What [histogram_chart] computes and prints below the chart. *)
Record HistogramInsights (F : Type) : Type := mkHistogram {
  hist_mean_sales : F;
  hist_median_sales : F;
  hist_std_sales : F;
  hist_skewness : F;
  hist_mean_median : MeanMedianInsight;
  hist_spread : HistogramSpread;
  hist_skew : SkewInsight
}.

Section OtherPages.

Context {F : Type} {A : PyFloat F}.

(** ** histogram_chart *)

(** Lines 338-355: [if mean_sales > median_sales ... elif
    mean_sales < median_sales ... else]. *)
Definition mean_median_insight (mean_sales median_sales : F)
  : MeanMedianInsight :=
  if fltb median_sales mean_sales then MeanAbove
  else if fltb mean_sales median_sales then MeanBelow
  else MeanEqual.

(** Line 359: ['high' if std_sales > 1 else 'low']. *)
Definition histogram_spread_of (std_sales : F) : HistogramSpread :=
  if fltb (of_int 1) std_sales then High else Low.

(** Lines 111-116 and 365-370: [if skewness > 0 ... elif skewness < 0 ...
    else]. *)
Definition skew_insight (skewness : F) : SkewInsight :=
  if fltb (of_int 0) skewness then PositiveSkew
  else if fltb skewness (of_int 0) then NegativeSkew
  else NoSkew.

(** Lines 311-370.  [Series.skew()] is a library function outside the
    arithmetic interface (it needs powers): it is the parameter [skew]. *)
Definition histogram_chart_on (skew : list F -> F) (col : list F)
  : HistogramInsights F :=
  let sales_data := dropna col in
  let mean_sales := mean sales_data in
  let median_sales := median sales_data in
  let std_sales := std sales_data in
  let skewness := skew sales_data in
  mkHistogram mean_sales median_sales std_sales skewness
    (mean_median_insight mean_sales median_sales)
    (histogram_spread_of std_sales)
    (skew_insight skewness).

Definition histogram_chart (skew : list F -> F)
  (data : list (SalesRecord F)) (selected_region : Region)
  : HistogramInsights F :=
  histogram_chart_on skew (column (region_mapping selected_region) data).

(** ** box_plot_chart: the plotted points *)

(** Line 392: the rows with a value in each of the five sales columns. *)
Definition box_data (data : list (SalesRecord F)) : list (SalesRecord F) :=
  filter
    (fun row =>
       forallb (fun region => negb (fisnan (region_mapping region row)))
               region_keys)
    data.

(** Line 393: [pd.melt], one block of (column, value) rows per column, the
    columns in the order of line 392. *)
Definition melted_data (data : list (SalesRecord F)) : list (Region * F) :=
  flat_map
    (fun region =>
       map (fun row => (region, region_mapping region row)) (box_data data))
    region_keys.

(** Line 397: the rows of the melted table whose column is selected. *)
Definition box_plot_points (data : list (SalesRecord F))
  (selected_regions : list Region) : list (Region * F) :=
  filter (fun point => existsb (Region_eqb (fst point)) selected_regions)
         (melted_data data).

(** The values plotted in the box of one region. *)
Definition box_of (region : Region) (points : list (Region * F)) : list F :=
  map snd (filter (fun point => Region_eqb (fst point) region) points).

(** ** groupby(...).sum() *)

Fixpoint insert_key (k : string) (keys : list string) : list string :=
  match keys with
  | [] => [k]
  | k' :: t => if String.leb k k' then k :: keys else k' :: insert_key k t
  end.

Fixpoint sort_keys (keys : list string) : list string :=
  match keys with
  | [] => []
  | k :: t => insert_key k (sort_keys t)
  end.

(** The group labels: the distinct keys, sorted.  The labels of
    [SalesRecord] are strings, never missing, so no row is left out of
    the groups. *)
Definition group_keys (key : SalesRecord F -> string)
  (data : list (SalesRecord F)) : list string :=
  sort_keys (nodup string_dec (map key data)).

(** The rows of one group, in the order of the table. *)
Definition group_rows (key : SalesRecord F -> string) (k : string)
  (data : list (SalesRecord F)) : list (SalesRecord F) :=
  filter (fun row => String.eqb (key row) k) data.

(** [GroupBy.sum()] of one column in one group: missing cells are
    skipped, and a group without a value sums to 0.  (pandas adds the
    cells of a group with a compensated sum: nothing below depends on
    the rounded value of a total.) *)
Definition group_sum (key : SalesRecord F -> string)
  (col : SalesRecord F -> F) (k : string) (data : list (SalesRecord F)) : F :=
  fsum (dropna (column col (group_rows key k data))).

(** [data.groupby(key)[col].sum().reset_index()]. *)
Definition groupby_sum (key : SalesRecord F -> string)
  (col : SalesRecord F -> F) (data : list (SalesRecord F))
  : list (string * F) :=
  map (fun k => (k, group_sum key col k data)) (group_keys key data).

(** ** pie_chart *)

(** The position and value of the first best non-missing entry, where
    [better b v] says that [v] beats the best so far. *)
Fixpoint first_best (better : F -> F -> bool) (vals : list F) (i : nat)
  (best : option (nat * F)) : option (nat * F) :=
  match vals with
  | [] => best
  | v :: t =>
      first_best better t (S i)
        (if fisnan v then best
         else match best with
              | None => Some (i, v)
              | Some (_, b) => if better b v then Some (i, v) else best
              end)
  end.

(** [Series.idxmax()] and [Series.idxmin()] on the default index: the
    position of the first largest (smallest) value, ValueError on an
    empty series, and the label NaN ([None]) when every entry is
    missing. *)
Definition idxmax (vals : list F) : result (option nat) :=
  match vals with
  | [] => Raise (ValueError "attempt to get argmax of an empty sequence")
  | _ => Ok (option_map fst (first_best (fun b v => fltb b v) vals 0 None))
  end.

Definition idxmin (vals : list F) : result (option nat) :=
  match vals with
  | [] => Raise (ValueError "attempt to get argmin of an empty sequence")
  | _ => Ok (option_map fst (first_best (fun b v => fltb v b) vals 0 None))
  end.

(** [frame.loc[label]]. *)
Definition loc {R : Type} (frame : list R) (label : option nat) : result R :=
  match label with
  | None => Raise (KeyError "nan")
  | Some i =>
      match nth_error frame i with
      | Some row => Ok row
      | None => Raise (KeyError "index")
      end
  end.

(** Lines 283-284: the leading platform and the platform with the lowest
    sales, in a table of totals. *)
Definition pie_chart_on (region_sales : list (string * F))
  : result ((string * F) * (string * F)) :=
  top_label <- idxmax (map snd region_sales) ;;
  top_platform <- loc region_sales top_label ;;
  lowest_label <- idxmin (map snd region_sales) ;;
  lowest_platform <- loc region_sales lowest_label ;;
  Ok (top_platform, lowest_platform).

(** Lines 253-284: the totals per platform, then the two platforms. *)
Definition pie_chart (data : list (SalesRecord F)) (region_selection : Region)
  : result ((string * F) * (string * F)) :=
  let selected_sales_column := region_mapping region_selection in
  let region_sales := groupby_sum (@Platform F) selected_sales_column data in
  pie_chart_on region_sales.

(** ** regional_sales_by_genre_chart *)

(** Line 548. *)
Definition sales_columns : list Region :=
  [NA_Sales_region; EU_Sales_region; JP_Sales_region; Other_Sales_region].

(** Lines 549-553: the totals per genre of the four regional columns,
    melted into (Genre, Region, Sales) rows, one block per column. *)
Definition melted_genre_sales (data : list (SalesRecord F))
  : list (string * Region * F) :=
  flat_map
    (fun region =>
       map (fun g => (fst g, region, snd g))
           (groupby_sum (@Genre F) (region_mapping region) data))
    sales_columns.

End OtherPages.

(** A float that is not below zero: NaN, a zero, or positive. *)
Definition not_negative (d : spec_float) : Prop :=
  match d with
  | S754_finite true _ _ | S754_infinity true => False
  | _ => True
  end.

(** A float, as the standard describes it, that is neither NaN nor
    infinite. *)
Definition SFfinite (a : spec_float) : Prop :=
  match a with
  | S754_zero _ | S754_finite _ _ _ => True
  | _ => False
  end.

(* ================================================================== *)
(** * General facts about the engine *)
(* ================================================================== *)

Section EngineFacts.

Context {F : Type} {A : PyFloat F}.

Lemma insert_length (x : F) (l : list F) :
  length (insert x l) = S (length l).
Proof.
  induction l as [|y t IH]; simpl; [reflexivity|].
  destruct (fleb x y); simpl; [reflexivity|now rewrite IH].
Qed.

Lemma sort_length (l : list F) : length (sort l) = length l.
Proof.
  induction l as [|x t IH]; simpl; [reflexivity|].
  now rewrite insert_length, IH.
Qed.

Lemma insert_In (x y : F) (l : list F) :
  In y (insert x l) <-> y = x \/ In y l.
Proof.
  induction l as [|z t IH]; simpl.
  - intuition congruence.
  - destruct (fleb x z); simpl; rewrite ?IH; intuition congruence.
Qed.

Lemma sort_In (y : F) (l : list F) : In y (sort l) <-> In y l.
Proof.
  induction l as [|x t IH]; simpl; [tauto|].
  rewrite insert_In, IH. intuition congruence.
Qed.

Lemma dropna_clean (xs : list F) :
  Forall (fun x => fisnan x = false) xs -> dropna xs = xs.
Proof.
  induction 1 as [|x t Hx _ IH]; simpl; [reflexivity|].
  now rewrite Hx, IH.
Qed.

Lemma dropna_idem (xs : list F) : dropna (dropna xs) = dropna xs.
Proof.
  apply dropna_clean, Forall_forall. intros x Hx.
  apply filter_In in Hx. now destruct (fisnan x), Hx.
Qed.

Lemma existsb_isnan_clean (xs : list F) :
  Forall (fun x => fisnan x = false) xs -> existsb fisnan xs = false.
Proof.
  induction 1 as [|x t Hx _ IH]; simpl; [reflexivity|].
  now rewrite Hx, IH.
Qed.

(** A non-empty list of counts attains its maximum. *)
Lemma list_max_In (l : list nat) : l <> [] -> In (list_max l) l.
Proof.
  induction l as [|a t IH]; [congruence|intros _].
  destruct t as [|b t'].
  - left. simpl. lia.
  - change (list_max (a :: b :: t')) with (Nat.max a (list_max (b :: t'))).
    destruct (Nat.max_spec a (list_max (b :: t'))) as [[_ E]|[_ E]];
      rewrite E.
    + right. apply IH. discriminate.
    + now left.
Qed.

Lemma unique_nonempty (l : list F) : l <> [] -> unique l <> [].
Proof. destruct l; simpl; congruence. Qed.

Lemma sort_nonempty (l : list F) : l <> [] -> sort l <> [].
Proof.
  intros Hl Hs. apply Hl, length_zero_iff_nil.
  now rewrite <- sort_length, Hs.
Qed.

(** [Series.mode()] of a column with a value is not empty. *)
Lemma mode_nonempty (xs : list F) : dropna xs <> [] -> mode xs <> [].
Proof.
  intros Hv. unfold mode.
  set (v := dropna xs) in *.
  set (top := list_max (map (fun y => count_eq y v) v)).
  apply sort_nonempty, unique_nonempty.
  assert (Hin : In top (map (fun y => count_eq y v) v)).
  { apply list_max_In. destruct v; simpl; congruence. }
  apply in_map_iff in Hin. destruct Hin as [y [Hy Hyv]].
  intros Hnil.
  assert (Hf : In y (filter (fun y0 => (count_eq y0 v =? top)%nat) v)).
  { apply filter_In. split; [exact Hyv|]. now apply Nat.eqb_eq. }
  rewrite Hnil in Hf. exact Hf.
Qed.

(** Without a value, [mode] is empty and [.values[0]] raises. *)
Lemma mode_no_values (xs : list F) : dropna xs = [] -> mode xs = [].
Proof. intros Hv. unfold mode. now rewrite Hv. Qed.

(** [show_metrics] returns exactly when the column has a value, and then
    every field is the expression of the source. *)
Lemma show_metrics_on_Ok (sales_data : list F) :
  dropna sales_data <> [] ->
  exists mode_value,
    first_value (mode sales_data) = Ok mode_value /\
    show_metrics_on sales_data =
    let Q1 := np_percentile sales_data (of_int 25) in
    let Q3 := np_percentile sales_data (of_int 75) in
    let IQR := fsub Q3 Q1 in
    let lower_bound := fsub Q1 (fmul (dec 15 10) IQR) in
    let upper_bound := fadd Q3 (fmul (dec 15 10) IQR) in
    let outliers :=
      filter (fun v => fltb v lower_bound || fltb upper_bound v) sales_data in
    Ok (mkMetrics (mean sales_data) (median sales_data) mode_value
          (std sales_data) (var sales_data)
          (series_min sales_data) (series_max sales_data)
          (fsub (series_max sales_data) (series_min sales_data))
          (np_percentile sales_data (of_int 25),
           np_percentile sales_data (of_int 50),
           np_percentile sales_data (of_int 75))
          Q1 Q3 IQR lower_bound upper_bound outliers
          (spread_of (std sales_data)) (outliers_of outliers)).
Proof.
  intros Hv. apply mode_nonempty in Hv.
  unfold show_metrics_on.
  destruct (mode sales_data) as [|mv rest]; [congruence|].
  exists mv. split; reflexivity.
Qed.

(** The Tukey rule of [show_metrics] (lines 60-73), in any arithmetic. *)
Lemma show_metrics_tukey (sales_data : list F) :
  dropna sales_data <> [] ->
  exists m,
    show_metrics_on sales_data = Ok m /\
    percentiles m = (Q1 m, np_percentile sales_data (of_int 50), Q3 m) /\
    Q1 m = np_percentile sales_data (of_int 25) /\
    Q3 m = np_percentile sales_data (of_int 75) /\
    IQR m = fsub (Q3 m) (Q1 m) /\
    lower_bound m = fsub (Q1 m) (fmul (dec 15 10) (IQR m)) /\
    upper_bound m = fadd (Q3 m) (fmul (dec 15 10) (IQR m)) /\
    (forall v,
       In v (outliers m) <->
       In v sales_data /\
       (fltb v (lower_bound m) = true \/ fltb (upper_bound m) v = true)).
Proof.
  intros Hv. destruct (show_metrics_on_Ok sales_data Hv) as [mv [_ Hm]].
  eexists. split; [exact Hm|].
  cbn [percentiles Q1 Q3 IQR lower_bound upper_bound outliers].
  repeat (split; [reflexivity|]).
  intros v. rewrite filter_In, orb_true_iff. reflexivity.
Qed.

(** Insertion into a list whose elements all follow [row] puts it first. *)
Lemma sort_by_year_ascending (rows : list (SalesRecord F)) :
  ascending_years rows -> sort_by_year rows = rows.
Proof.
  induction 1 as [|r t Ht IH Hr]; simpl; [reflexivity|].
  rewrite IH. destruct t as [|r' t']; simpl; [reflexivity|].
  inversion Hr as [|? ? Hle _]; subst. now rewrite Hle.
Qed.

(** On a column with a value and no NaN, [Series.quantile] is
    [np.percentile] of the scaled quantile. *)
Lemma quantile_clean (xs : list F) (q : F) :
  xs <> [] -> Forall (fun x => fisnan x = false) xs ->
  quantile xs q = np_percentile xs (fmul q (of_int 100)).
Proof.
  intros Hne Hclean. unfold quantile. rewrite (dropna_clean Hclean).
  destruct xs; [congruence|reflexivity].
Qed.

Lemma diff_from_constant (c : F) (k : nat) :
  diff_from c (repeat c k) = repeat (fsub c c) k.
Proof.
  induction k as [|k IH]; simpl; [reflexivity|now rewrite IH].
Qed.

(** On rows in ascending year order the chart computes the trend of the
    specification. *)
Lemma sales_over_time_chart_ascending (data : list (SalesRecord F))
  (selected_region : Region) :
  ascending_years (filtered_data data selected_region) ->
  sales_over_time_chart data selected_region =
  if forallb (fun row => fisnan (Year row)) data then None
  else Some (trend_in_year_order data selected_region,
             trend_insight (trend_in_year_order data selected_region)).
Proof.
  intros Hasc. unfold sales_over_time_chart, trend_in_year_order.
  now rewrite (sort_by_year_ascending Hasc).
Qed.

End EngineFacts.

(* ================================================================== *)
(** * Binary64: comparisons *)
(* ================================================================== *)

Section FloatOrder.

Local Open Scope float_scope.

Lemma SFcompare_refl (a : spec_float) :
  a <> S754_nan -> SFcompare a a = Some Eq.
Proof.
  destruct a as [s|s| |s m e]; simpl; try congruence; intros _.
  - now destruct s.
  - destruct s; rewrite Z.compare_refl, Pos.compare_cont_refl; reflexivity.
Qed.

Lemma SFcompare_antisym (a b : spec_float) :
  SFcompare b a = option_map CompOpp (SFcompare a b).
Proof.
  destruct a as [sa|sa| |sa ma ea], b as [sb|sb| |sb mb eb]; simpl;
    try reflexivity; try (now destruct sa); try (now destruct sb);
    try (now destruct sa, sb).
  destruct sa, sb; simpl; try reflexivity;
    rewrite (Z.compare_antisym ea eb);
    destruct (ea ?= eb)%Z eqn:E; simpl; try reflexivity;
    rewrite (Pos.compare_cont_antisym ma mb Eq); simpl;
    now destruct (Pos.compare_cont Eq ma mb).
Qed.

Lemma SFcompare_None (a b : spec_float) :
  SFcompare a b = None <-> a = S754_nan \/ b = S754_nan.
Proof.
  destruct a as [sa|sa| |sa ma ea], b as [sb|sb| |sb mb eb]; simpl;
    split; intros H; try discriminate; try tauto;
    try (destruct H; discriminate).
Qed.

Lemma is_nan_spec (x : float) :
  PrimFloat.is_nan x = true <-> Prim2SF x = S754_nan.
Proof.
  unfold PrimFloat.is_nan. rewrite eqb_spec. unfold SFeqb.
  split.
  - intros H. destruct (SFcompare (Prim2SF x) (Prim2SF x)) eqn:E.
    + destruct (Prim2SF x); try reflexivity;
        rewrite SFcompare_refl in E by discriminate;
        injection E as <-; discriminate.
    + apply SFcompare_None in E. tauto.
  - intros ->. reflexivity.
Qed.

Lemma is_nan_false (x : float) :
  PrimFloat.is_nan x = false <-> Prim2SF x <> S754_nan.
Proof.
  rewrite <- is_nan_spec. destruct (PrimFloat.is_nan x); split; congruence.
Qed.

Lemma float_order_cases (x y : float) : float_order x y.
Proof.
  pose proof (SFcompare_antisym (Prim2SF x) (Prim2SF y)) as Hanti.
  destruct (SFcompare (Prim2SF x) (Prim2SF y)) as [[| |]|] eqn:E.
  - apply order_eq;
      rewrite ?is_nan_false, ?ltb_spec, ?leb_spec, ?eqb_spec;
      unfold SFltb, SFleb, SFeqb; rewrite ?E, ?Hanti; simpl;
      try reflexivity;
      intros Hn; rewrite Hn in E; simpl in E;
      destruct (Prim2SF x); discriminate.
  - apply order_lt;
      rewrite ?is_nan_false, ?ltb_spec, ?leb_spec, ?eqb_spec;
      unfold SFltb, SFleb, SFeqb; rewrite ?E, ?Hanti; simpl;
      try reflexivity;
      intros Hn; rewrite Hn in E; simpl in E;
      destruct (Prim2SF x); discriminate.
  - apply order_gt;
      rewrite ?is_nan_false, ?ltb_spec, ?leb_spec, ?eqb_spec;
      unfold SFltb, SFleb, SFeqb; rewrite ?E, ?Hanti; simpl;
      try reflexivity;
      intros Hn; rewrite Hn in E; simpl in E;
      destruct (Prim2SF x); discriminate.
  - apply order_unordered;
      rewrite ?ltb_spec, ?leb_spec, ?eqb_spec;
      unfold SFltb, SFleb, SFeqb; rewrite ?E, ?Hanti; simpl;
      try reflexivity.
    apply SFcompare_None in E. rewrite !is_nan_spec. exact E.
Qed.

(** The order is transitive. *)

Lemma SFcompare_Lt_key (a b : spec_float) :
  SFcompare a b = Some Lt <->
  a <> S754_nan /\ b <> S754_nan /\ key_lt (SFkey a) (SFkey b).
Proof.
  destruct a as [[]|[]| |[] ma ea], b as [[]|[]| |[] mb eb];
    unfold key_lt; simpl;
    try (split;
         [intros H; try discriminate; repeat split; try discriminate; lia
         |intros (Ha & Hb & H); try congruence; try reflexivity; lia]);
    change (Pos.compare_cont Eq ma mb) with (ma ?= mb)%positive;
    destruct (Z.compare_spec ea eb) as [He|He|He];
    destruct (Pos.compare_spec ma mb) as [Hm|Hm|Hm]; simpl;
    (split;
     [intros H; try discriminate; repeat split; try discriminate; lia
     |intros (_ & _ & H); try reflexivity; lia]).
Qed.

Lemma SFcompare_Eq_key (a b : spec_float) :
  SFcompare a b = Some Eq ->
  a <> S754_nan /\ b <> S754_nan /\ SFkey a = SFkey b.
Proof.
  destruct a as [sa|sa| |sa ma ea], b as [sb|sb| |sb mb eb]; simpl;
    try discriminate;
    try (intros _; repeat split; discriminate);
    try (destruct sa; discriminate);
    try (destruct sb; discriminate).
  - destruct sa, sb; try discriminate; intros _; repeat split; discriminate.
  - change (Pos.compare_cont Eq ma mb) with (ma ?= mb)%positive.
    destruct sa, sb; try discriminate;
      destruct (Z.compare_spec ea eb) as [He|He|He]; try discriminate;
      destruct (Pos.compare_spec ma mb) as [Hm|Hm|Hm]; try discriminate;
      intros _; subst; repeat split; discriminate.
Qed.

Lemma key_lt_trans (k1 k2 k3 : Z * Z * Z) :
  key_lt k1 k2 -> key_lt k2 k3 -> key_lt k1 k3.
Proof.
  destruct k1 as [[a1 b1] c1], k2 as [[a2 b2] c2], k3 as [[a3 b3] c3].
  unfold key_lt. lia.
Qed.

(** [x <= y] and [y < z] give [x < z]. *)
Lemma float_le_lt_trans (x y z : float) :
  (x <=? y) = true -> (y <? z) = true -> (x <? z) = true.
Proof.
  rewrite leb_spec, !ltb_spec. unfold SFleb, SFltb.
  destruct (SFcompare (Prim2SF x) (Prim2SF y)) as [[| |]|] eqn:Exy;
    try discriminate; intros _;
    destruct (SFcompare (Prim2SF y) (Prim2SF z)) as [[| |]|] eqn:Eyz;
    try discriminate; intros _.
  - apply SFcompare_Eq_key in Exy. destruct Exy as (Hx & Hy & Hk).
    apply SFcompare_Lt_key in Eyz. destruct Eyz as (_ & Hz & Hlt).
    rewrite <- Hk in Hlt.
    assert (E : SFcompare (Prim2SF x) (Prim2SF z) = Some Lt)
      by (apply SFcompare_Lt_key; auto).
    now rewrite E.
  - apply SFcompare_Lt_key in Exy. destruct Exy as (Hx & Hy & Hxy).
    apply SFcompare_Lt_key in Eyz. destruct Eyz as (_ & Hz & Hyz).
    assert (E : SFcompare (Prim2SF x) (Prim2SF z) = Some Lt)
      by (apply SFcompare_Lt_key; eauto using key_lt_trans).
    now rewrite E.
Qed.

(** Nothing at or below [y] is above a larger [z]. *)
Lemma float_le_not_gt (x y z : float) :
  (x <=? y) = true -> (y <? z) = true -> (z <? x) = false.
Proof.
  intros Hxy Hyz. pose proof (float_le_lt_trans Hxy Hyz) as Hxz.
  destruct (float_order_cases x z); congruence.
Qed.

(** The insights, with their literals as binary64 values. *)

Lemma correlation_insight_float (r : float) :
  correlation_insight r =
  if 0.75 <? r then Strong
  else if 0.5 <? r then Moderate
  else if 0.3 <? r then Weak
  else Negligible.
Proof. reflexivity. Qed.

Lemma spread_of_float (std_sales : float) :
  spread_of std_sales = if 1 <? std_sales then Wide else Consistent.
Proof. reflexivity. Qed.

Lemma box_spread_of_float (iqr : float) :
  box_spread_of iqr = if 1 <? iqr then BoxWide else BoxNarrow.
Proof. reflexivity. Qed.

Lemma trend_insight_float (sales_trend : float) :
  trend_insight sales_trend =
  if 0 <? sales_trend then Increasing
  else if sales_trend <? 0 then Decreasing
  else Stable.
Proof. reflexivity. Qed.

(** A comparison with NaN is false. *)
Lemma float_nan_not_gt (c r : float) :
  PrimFloat.is_nan r = true -> (c <? r) = false.
Proof.
  intros Hn. destruct (float_order_cases c r); congruence.
Qed.

End FloatOrder.

(* ================================================================== *)
(** * Binary64: [c - c], [0 / count] and constant series *)
(* ================================================================== *)

Lemma digits2_pos_lower (p : positive) :
  (2 ^ (Z.pos (digits2_pos p) - 1) <= Z.pos p)%Z.
Proof.
  induction p as [p IH|p IH|]; simpl digits2_pos.
  - rewrite Pos2Z.inj_succ.
    replace (Z.succ (Z.pos (digits2_pos p)) - 1)%Z
      with (Z.succ (Z.pos (digits2_pos p) - 1))%Z by lia.
    rewrite Z.pow_succ_r by lia. lia.
  - rewrite Pos2Z.inj_succ.
    replace (Z.succ (Z.pos (digits2_pos p)) - 1)%Z
      with (Z.succ (Z.pos (digits2_pos p) - 1))%Z by lia.
    rewrite Z.pow_succ_r by lia. lia.
  - simpl. lia.
Qed.

Lemma digits2_pos_small (p : positive) :
  (Z.pos p < 2 ^ 53)%Z -> (Z.pos (digits2_pos p) <= 53)%Z.
Proof.
  intros Hp. pose proof (digits2_pos_lower p) as Hl.
  destruct (Z_le_gt_dec (Z.pos (digits2_pos p)) 53) as [H|H]; [exact H|].
  exfalso.
  assert (2 ^ 53 <= 2 ^ (Z.pos (digits2_pos p) - 1))%Z
    by (apply Z.pow_le_mono_r; lia).
  lia.
Qed.

Lemma digits2_pos_iter_xO (p k : positive) :
  digits2_pos (Pos.iter xO p k) = (digits2_pos p + k)%positive.
Proof.
  induction k as [|k IH] using Pos.peano_ind.
  - simpl. lia.
  - rewrite Pos.iter_succ. simpl. rewrite IH. lia.
Qed.

Lemma binary_round_aux_canonical (mz : positive) (ez : Z) :
  Z.pos (digits2_pos mz) = 53%Z -> (-1074 <= ez <= 971)%Z ->
  binary_round_aux prec emax false (Z.pos mz) ez loc_Exact
  = S754_finite false mz ez.
Proof.
  intros Hd He.
  assert (Hn : (fexp prec emax (Zdigits2 (Z.pos mz) + ez) - ez = 0)%Z).
  { unfold fexp, SpecFloat.emin, prec, emax, Zdigits2. rewrite Hd. lia. }
  unfold binary_round_aux, shr_fexp.
  rewrite Hn. cbn [shr shr_record_of_loc shr_m loc_of_shr_record
                   round_nearest_even].
  rewrite Hn. cbn [shr shr_record_of_loc shr_m].
  destruct (Z.leb_spec ez (emax - prec)) as [_|H];
    [reflexivity|unfold emax, prec in H; lia].
Qed.

Lemma binary_round_small (p : positive) :
  (Z.pos p < 2 ^ 53)%Z ->
  exists m e, binary_round prec emax false p 0 = S754_finite false m e.
Proof.
  intros Hp. pose proof (digits2_pos_small Hp) as Hd.
  unfold binary_round.
  assert (Hfexp : fexp prec emax (Z.pos (digits2_pos p) + 0)
                  = (Z.pos (digits2_pos p) - 53)%Z).
  { unfold fexp, SpecFloat.emin, prec, emax. lia. }
  rewrite Hfexp. unfold shl_align.
  destruct (Z.pos (digits2_pos p) - 53 - 0)%Z as [|d|d] eqn:Ed;
    try lia.
  - rewrite binary_round_aux_canonical by lia. eauto.
  - rewrite binary_round_aux_canonical; [eauto| |lia].
    rewrite digits2_pos_iter_xO. lia.
Qed.

Lemma float_of_count_finite (k : Z) :
  (0 < k < 2 ^ 53)%Z ->
  exists m e, Prim2SF (float_of_Z k) = S754_finite false m e.
Proof.
  intros Hk. unfold float_of_Z.
  destruct (Z.ltb_spec k 0) as [H|_]; [lia|].
  rewrite FloatAxioms.of_uint63_spec, Uint63.of_Z_spec.
  rewrite Z.mod_small by (unfold Uint63.wB; simpl; lia).
  destruct k as [|p|p]; try lia.
  apply binary_round_small. lia.
Qed.

Lemma float_zero_div_count (k : Z) :
  (0 < k < 2 ^ 53)%Z -> (0 / float_of_Z k)%float = 0%float.
Proof.
  intros Hk. destruct (float_of_count_finite Hk) as (m & e & E).
  apply Prim2SF_inj. rewrite FloatAxioms.div_spec, E. reflexivity.
Qed.

Lemma is_infinity_spec (x : float) (s : bool) :
  Prim2SF x = S754_infinity s -> PrimFloat.is_infinity x = true.
Proof.
  intros E. unfold PrimFloat.is_infinity.
  rewrite FloatAxioms.eqb_spec, FloatAxioms.abs_spec, E. reflexivity.
Qed.

Lemma float_sub_diag (c : float) : finite c -> (c - c)%float = 0%float.
Proof.
  unfold finite, PrimFloat.is_finite. intros Hc.
  apply negb_true_iff, orb_false_iff in Hc. destruct Hc as [Hnan Hinf].
  apply Prim2SF_inj. rewrite FloatAxioms.sub_spec.
  destruct (Prim2SF c) as [s|s| |s m e] eqn:E.
  - now destruct s.
  - apply is_infinity_spec in E. congruence.
  - apply is_nan_spec in E. congruence.
  - unfold SF64sub, SFsub. rewrite Z.sub_diag. reflexivity.
Qed.

Section FloatSums.

Local Open Scope float_scope.

Lemma fsum_zeros (k : nat) : fsum (repeat 0 k) = 0.
Proof.
  unfold fsum. change (of_int 0) with 0.
  induction k as [|k IH]; simpl; [reflexivity|].
  change (fadd 0 0) with 0. exact IH.
Qed.

Lemma dropna_zeros (k : nat) : dropna (repeat 0 k) = repeat 0 k.
Proof.
  apply dropna_clean, Forall_forall. intros x Hx.
  apply repeat_spec in Hx. now subst.
Qed.

(** A constant series of at least two finite values has mean difference
    exactly 0. *)
Lemma constant_trend_zero (c : float) (n : nat) :
  finite c -> (2 <= n)%nat -> (Z.of_nat n <= 2 ^ 53)%Z ->
  sales_trend_of (repeat c n) = 0.
Proof.
  intros Hc Hn Hbig.
  destruct n as [|[|k]]; try lia.
  unfold sales_trend_of.
  change (repeat c (S (S k))) with (c :: repeat c (S k)). unfold diff.
  rewrite diff_from_constant. change (fsub c c) with (c - c).
  rewrite (float_sub_diag Hc).
  unfold mean. cbn [dropna filter fisnan float_arith negb].
  change (PrimFloat.is_nan fnan) with true. cbn [negb].
  change (filter (fun x => negb (PrimFloat.is_nan x)) (repeat 0 (S k)))
    with (dropna (repeat 0 (S k))).
  rewrite dropna_zeros. cbn [repeat].
  change (0 :: repeat 0 k) with (repeat 0 (S k)).
  rewrite fsum_zeros. unfold flen. rewrite repeat_length.
  apply float_zero_div_count. lia.
Qed.

End FloatSums.

(* ================================================================== *)
(** * Binary64: the sign of a difference *)
(* ================================================================== *)

Lemma digits2_pos_upper (p : positive) :
  (Z.pos p < 2 ^ Z.pos (digits2_pos p))%Z.
Proof.
  induction p as [p IH|p IH|]; simpl digits2_pos.
  - rewrite Pos2Z.inj_succ, Z.pow_succ_r by lia. lia.
  - rewrite Pos2Z.inj_succ, Z.pow_succ_r by lia. lia.
  - simpl. lia.
Qed.

Lemma iter_xO_value (m d : positive) :
  Z.pos (Pos.iter xO m d) = (Z.pos m * 2 ^ Z.pos d)%Z.
Proof.
  induction d as [|d IH] using Pos.peano_ind.
  - simpl. lia.
  - rewrite Pos.iter_succ, Pos2Z.inj_xO, IH, Pos2Z.inj_succ,
      Z.pow_succ_r by lia. lia.
Qed.

(** A mantissa aligned to a smaller exponent. *)
Lemma shl_align_value (m : positive) (e ez : Z) :
  (ez <= e)%Z ->
  Z.pos (fst (shl_align m e ez)) = (Z.pos m * 2 ^ (e - ez))%Z.
Proof.
  intros He. unfold shl_align.
  destruct (ez - e)%Z as [|d|d] eqn:Ed; try lia.
  - replace (e - ez)%Z with 0%Z by lia. simpl. lia.
  - cbn [fst]. rewrite iter_xO_value. f_equal. f_equal. lia.
Qed.

(** Of two valid finite magnitudes, the one with the smaller exponent, or
    with the same exponent and the smaller mantissa, is the smaller once
    both are aligned. *)
Lemma aligned_magnitudes (m1 m2 : positive) (e1 e2 : Z) :
  bounded prec emax m1 e1 = true -> bounded prec emax m2 e2 = true ->
  (e1 < e2)%Z \/ (e1 = e2 /\ (m1 <= m2)%positive) ->
  (Z.pos (fst (shl_align m1 e1 (Z.min e1 e2)))
   <= Z.pos (fst (shl_align m2 e2 (Z.min e1 e2))))%Z.
Proof.
  unfold bounded, canonical_mantissa, fexp, SpecFloat.emin, prec, emax.
  intros H1 H2 H.
  apply andb_true_iff in H1. destruct H1 as [H1 _].
  apply andb_true_iff in H2. destruct H2 as [H2 _].
  apply Z.eqb_eq in H1. apply Z.eqb_eq in H2.
  rewrite !shl_align_value by lia.
  destruct H as [Hlt|[-> Hle]].
  - rewrite Z.min_l by lia. rewrite Z.sub_diag, Z.mul_1_r.
    pose proof (digits2_pos_upper m1) as U1.
    pose proof (digits2_pos_lower m2) as L2.
    assert (D1 : (Z.pos (digits2_pos m1) <= 53)%Z) by lia.
    assert (D2 : Z.pos (digits2_pos m2) = 53%Z) by lia.
    rewrite D2 in L2.
    assert (P1 : (2 ^ Z.pos (digits2_pos m1) <= 2 ^ 53)%Z)
      by (apply Z.pow_le_mono_r; lia).
    assert (P2 : (2 ^ 1 <= 2 ^ (e2 - e1))%Z)
      by (apply Z.pow_le_mono_r; lia).
    change (2 ^ 1)%Z with 2%Z in P2.
    change (2 ^ (53 - 1))%Z with 4503599627370496%Z in L2.
    change (2 ^ 53)%Z with 9007199254740992%Z in P1.
    nia.
  - rewrite Z.min_id, Z.sub_diag. lia.
Qed.

(** Rounding keeps the sign it is given. *)

Lemma binary_round_not_negative (m : positive) (e : Z) :
  not_negative (binary_round prec emax false m e).
Proof.
  unfold binary_round.
  destruct (shl_align m e _) as [mz ez].
  unfold binary_round_aux.
  destruct (shr_fexp prec emax (Z.pos mz) ez loc_Exact) as [mrs' e'].
  destruct (shr_fexp prec emax _ e' loc_Exact) as [mrs'' e''].
  destruct (shr_m mrs'') as [|p|p]; cbn [not_negative]; auto.
  destruct (e'' <=? emax - prec)%Z; cbn [not_negative]; auto.
Qed.

Lemma not_negative_compare (d : spec_float) :
  not_negative d -> SFltb d (S754_zero false) = false.
Proof.
  destruct d as [[]|[]| |[] m e]; simpl; tauto.
Qed.

Lemma binary_normalize_not_negative (z e : Z) :
  (0 <= z)%Z -> not_negative (binary_normalize prec emax z e false).
Proof.
  intros Hz. destruct z as [|p|p]; [exact I| |lia].
  apply binary_round_not_negative.
Qed.

(** The difference of two ordered valid floats is not negative. *)
Lemma SFsub_not_negative (a b : spec_float) :
  valid_binary a = true -> valid_binary b = true ->
  SFleb a b = true ->
  not_negative (SFsub prec emax b a).
Proof.
  intros Va Vb. unfold SFleb.
  destruct a as [sa|sa| |sa ma ea], b as [sb|sb| |sb mb eb];
    try (destruct sa); try (destruct sb);
    cbn [SFcompare SFsub not_negative cond_Zopp negb];
    try discriminate; auto;
    change (Pos.compare_cont Eq ma mb) with (ma ?= mb)%positive;
    intros H; apply binary_normalize_not_negative.
  - (* both negative *)
    assert (Hord : (eb < ea)%Z \/ (eb = ea /\ (mb <= ma)%positive)).
    { destruct (Z.compare_spec ea eb) as [He|He|He]; try discriminate.
      - right. split; [now symmetry|].
        destruct (Pos.compare_spec ma mb) as [Hm|Hm|Hm];
          try discriminate; lia.
      - now left. }
    pose proof (@aligned_magnitudes mb ma eb ea Vb Va Hord). lia.
  - (* a negative, b positive *)
    lia.
  - (* both positive *)
    assert (Hord : (ea < eb)%Z \/ (ea = eb /\ (ma <= mb)%positive)).
    { destruct (Z.compare_spec ea eb) as [He|He|He]; try discriminate.
      - right. split; [exact He|].
        destruct (Pos.compare_spec ma mb) as [Hm|Hm|Hm];
          try discriminate; lia.
      - now left. }
    pose proof (@aligned_magnitudes ma mb ea eb Va Vb Hord) as Hal.
    rewrite (Z.min_comm ea eb) in Hal. lia.
Qed.

(** Rounding a positive mantissa never yields NaN. *)
Lemma shr_1_nonneg (mrs : shr_record) :
  (0 <= shr_m mrs)%Z -> (0 <= shr_m (shr_1 mrs))%Z.
Proof.
  destruct mrs as [m r s]. destruct m as [|[p|p|]|[p|p|]]; simpl; lia.
Qed.

Lemma iter_shr_1_nonneg (p : positive) :
  forall mrs : shr_record,
    (0 <= shr_m mrs)%Z -> (0 <= shr_m (iter_pos shr_1 p mrs))%Z.
Proof.
  induction p as [p IH|p IH|]; intros mrs H; simpl.
  - apply IH, IH, shr_1_nonneg, H.
  - apply IH, IH, H.
  - apply shr_1_nonneg, H.
Qed.

Lemma shr_fexp_nonneg (m e : Z) (l : location) :
  (0 <= m)%Z -> (0 <= shr_m (fst (shr_fexp prec emax m e l)))%Z.
Proof.
  intros Hm. unfold shr_fexp, shr.
  assert (H0 : (0 <= shr_m (shr_record_of_loc m l))%Z)
    by (destruct l as [|[]]; exact Hm).
  destruct (fexp prec emax (Zdigits2 m + e) - e)%Z; cbn [fst];
    [exact H0|now apply iter_shr_1_nonneg|exact H0].
Qed.

Lemma round_nearest_even_nonneg (m : Z) (l : location) :
  (0 <= m)%Z -> (0 <= round_nearest_even m l)%Z.
Proof.
  intros Hm. destruct l as [|[]]; simpl; try lia.
  destruct (Z.even m); lia.
Qed.

Lemma binary_round_not_nan (s : bool) (m : positive) (e : Z) :
  binary_round prec emax s m e <> S754_nan.
Proof.
  unfold binary_round.
  destruct (shl_align m e _) as [mz ez].
  unfold binary_round_aux.
  pose proof (@shr_fexp_nonneg (Z.pos mz) ez loc_Exact ltac:(lia)) as H1.
  destruct (shr_fexp prec emax (Z.pos mz) ez loc_Exact) as [mrs' e'].
  cbn [fst] in H1.
  pose proof (@shr_fexp_nonneg
                (round_nearest_even (shr_m mrs') (loc_of_shr_record mrs'))
                e' loc_Exact
                (round_nearest_even_nonneg _ H1)) as H2.
  destruct (shr_fexp prec emax _ e' loc_Exact) as [mrs'' e''].
  cbn [fst] in H2.
  destruct (shr_m mrs'') as [|p|p]; [discriminate| |lia].
  destruct (e'' <=? emax - prec)%Z; discriminate.
Qed.

Lemma SFsub_not_nan (a b : spec_float) :
  SFfinite a -> SFfinite b -> SFsub prec emax b a <> S754_nan.
Proof.
  destruct a as [sa|sa| |sa ma ea], b as [sb|sb| |sb mb eb];
    cbn [SFfinite SFsub]; try tauto; intros _ _;
    try (destruct sa, sb; discriminate); try discriminate.
  unfold binary_normalize.
  destruct (_ - _)%Z; [discriminate| |]; apply binary_round_not_nan.
Qed.

Lemma finite_spec (x : float) : finite x -> SFfinite (Prim2SF x).
Proof.
  unfold finite, PrimFloat.is_finite. intros Hx.
  apply negb_true_iff, orb_false_iff in Hx. destruct Hx as [Hnan Hinf].
  destruct (Prim2SF x) as [s|s| |s m e] eqn:E; cbn [SFfinite]; auto.
  - apply is_infinity_spec in E. congruence.
  - apply is_nan_spec in E. congruence.
Qed.

Section FloatDifference.

Local Open Scope float_scope.

(** In binary64, [b - a] is never negative when [a <= b]. *)
Lemma float_sub_not_negative (a b : float) :
  (a <=? b) = true -> (b - a <? 0) = false.
Proof.
  intros H. rewrite FloatAxioms.ltb_spec, FloatAxioms.sub_spec.
  rewrite FloatAxioms.leb_spec in H.
  change (Prim2SF 0) with (S754_zero false).
  apply not_negative_compare, SFsub_not_negative;
    [apply Prim2SF_valid|apply Prim2SF_valid|exact H].
Qed.

(** In binary64, [b - a >= 0] when [a <= b] are finite. *)
Lemma float_sub_nonneg (a b : float) :
  finite a -> finite b -> (a <=? b) = true -> (0 <=? b - a) = true.
Proof.
  intros Ha Hb H. rewrite FloatAxioms.leb_spec, FloatAxioms.sub_spec.
  rewrite FloatAxioms.leb_spec in H.
  change (Prim2SF 0) with (S754_zero false).
  pose proof (@SFsub_not_negative (Prim2SF a) (Prim2SF b)
                (Prim2SF_valid a) (Prim2SF_valid b) H) as Hneg.
  pose proof (@SFsub_not_nan (Prim2SF a) (Prim2SF b)
                (finite_spec Ha) (finite_spec Hb)) as Hnan.
  unfold SF64sub.
  destruct (SFsub prec emax (Prim2SF b) (Prim2SF a)) as [[]|[]| |[] m e];
    cbn [not_negative] in Hneg; try tauto; try reflexivity.
Qed.

End FloatDifference.

(* ================================================================== *)
(** * Binary64: more of the order *)
(* ================================================================== *)

Section FloatOrderMore.

Local Open Scope float_scope.

Lemma float_le_refl (x : float) :
  PrimFloat.is_nan x = false -> (x <=? x) = true.
Proof.
  intros Hx. destruct (float_order_cases x x) as [[H|H]| | |]; congruence.
Qed.

Lemma float_lt_le (x y : float) : (x <? y) = true -> (x <=? y) = true.
Proof. intros H. destruct (float_order_cases x y); congruence. Qed.

Lemma float_le_not_nan (x y : float) :
  (x <=? y) = true ->
  PrimFloat.is_nan x = false /\ PrimFloat.is_nan y = false.
Proof.
  intros H. destruct (float_order_cases x y); split; congruence.
Qed.

Lemma float_not_lt_le (x y : float) :
  PrimFloat.is_nan x = false -> PrimFloat.is_nan y = false ->
  (y <? x) = false -> (x <=? y) = true.
Proof.
  intros Hx Hy H.
  destruct (float_order_cases x y) as [[Hn|Hn]| | |]; congruence.
Qed.

Lemma float_eq_not_lt (x y : float) :
  (x =? y) = true -> (x <? y) = false /\ (y <? x) = false.
Proof. intros H. destruct (float_order_cases x y); split; congruence. Qed.

(** [x < y] and [y <= z] give [x < z]. *)
Lemma float_lt_le_trans (x y z : float) :
  (x <? y) = true -> (y <=? z) = true -> (x <? z) = true.
Proof.
  rewrite leb_spec, !ltb_spec. unfold SFleb, SFltb.
  destruct (SFcompare (Prim2SF x) (Prim2SF y)) as [[| |]|] eqn:Exy;
    try discriminate; intros _;
    destruct (SFcompare (Prim2SF y) (Prim2SF z)) as [[| |]|] eqn:Eyz;
    try discriminate; intros _.
  - apply SFcompare_Lt_key in Exy. destruct Exy as (Hx & Hy & Hlt).
    apply SFcompare_Eq_key in Eyz. destruct Eyz as (_ & Hz & Hk).
    rewrite Hk in Hlt.
    assert (E : SFcompare (Prim2SF x) (Prim2SF z) = Some Lt)
      by (apply SFcompare_Lt_key; auto).
    now rewrite E.
  - apply SFcompare_Lt_key in Exy. destruct Exy as (Hx & Hy & Hxy).
    apply SFcompare_Lt_key in Eyz. destruct Eyz as (_ & Hz & Hyz).
    assert (E : SFcompare (Prim2SF x) (Prim2SF z) = Some Lt)
      by (apply SFcompare_Lt_key; eauto using key_lt_trans).
    now rewrite E.
Qed.

Lemma float_lt_trans (x y z : float) :
  (x <? y) = true -> (y <? z) = true -> (x <? z) = true.
Proof.
  intros Hxy Hyz. apply float_le_lt_trans with y; [|exact Hyz].
  now apply float_lt_le.
Qed.

Lemma float_le_trans (x y z : float) :
  (x <=? y) = true -> (y <=? z) = true -> (x <=? z) = true.
Proof.
  intros Hxy Hyz.
  destruct (float_le_not_nan Hxy) as [Hx _].
  destruct (float_le_not_nan Hyz) as [_ Hz].
  apply float_not_lt_le; [exact Hx|exact Hz|].
  destruct (z <? x) eqn:E; [|reflexivity].
  pose proof (float_lt_le_trans E Hxy) as Hzy.
  destruct (float_order_cases y z); congruence.
Qed.

(** Of three floats, the middle one not NaN: [x < z] gives [x < y] or
    [y < z]. *)
Lemma float_lt_split (x y z : float) :
  PrimFloat.is_nan y = false -> (x <? z) = true ->
  (x <? y) = true \/ (y <? z) = true.
Proof.
  intros Hy Hxz.
  destruct (x <? y) eqn:E; [now left|right].
  assert (Hx : PrimFloat.is_nan x = false)
    by (destruct (float_order_cases x z); congruence).
  apply float_le_lt_trans with x; [|exact Hxz].
  now apply float_not_lt_le.
Qed.

(** [Series.min()] and [Series.max()] of floats without NaN. *)
Lemma min_fold_float (t : list float) :
  forall x : float,
    PrimFloat.is_nan x = false ->
    Forall (fun v => PrimFloat.is_nan v = false) t ->
    PrimFloat.is_nan
      (fold_left (fun m y : float => if fltb y m then y else m) t x) = false /\
    (fold_left (fun m y : float => if fltb y m then y else m) t x <=? x)
      = true /\
    (forall y, In y t ->
       (fold_left (fun m y : float => if fltb y m then y else m) t x <=? y)
         = true).
Proof.
  induction t as [|y t IH]; intros x Hx Ht.
  - simpl. repeat split; [exact Hx|now apply float_le_refl|intros ? []].
  - inversion Ht as [|? ? Hy Ht']; subst. cbn [fold_left].
    change (fltb y x) with (y <? x).
    destruct (y <? x) eqn:E.
    + destruct (IH y Hy Ht') as (Hn & Hle & Hall).
      repeat split; [exact Hn| |].
      * apply float_le_trans with y; [exact Hle|now apply float_lt_le].
      * intros z [<-|Hz]; [exact Hle|now apply Hall].
    + destruct (IH x Hx Ht') as (Hn & Hle & Hall).
      repeat split; [exact Hn|exact Hle|].
      intros z [<-|Hz]; [|now apply Hall].
      apply float_le_trans with x; [exact Hle|].
      now apply float_not_lt_le.
Qed.

Lemma max_fold_float (t : list float) :
  forall x : float,
    PrimFloat.is_nan x = false ->
    Forall (fun v => PrimFloat.is_nan v = false) t ->
    PrimFloat.is_nan
      (fold_left (fun m y : float => if fltb m y then y else m) t x) = false /\
    (x <=? fold_left (fun m y : float => if fltb m y then y else m) t x)
      = true /\
    (forall y, In y t ->
       (y <=? fold_left (fun m y : float => if fltb m y then y else m) t x)
         = true).
Proof.
  induction t as [|y t IH]; intros x Hx Ht.
  - simpl. repeat split; [exact Hx|now apply float_le_refl|intros ? []].
  - inversion Ht as [|? ? Hy Ht']; subst. cbn [fold_left].
    change (fltb x y) with (x <? y).
    destruct (x <? y) eqn:E.
    + destruct (IH y Hy Ht') as (Hn & Hle & Hall).
      repeat split; [exact Hn| |].
      * apply float_le_trans with y; [now apply float_lt_le|exact Hle].
      * intros z [<-|Hz]; [exact Hle|now apply Hall].
    + destruct (IH x Hx Ht') as (Hn & Hle & Hall).
      repeat split; [exact Hn|exact Hle|].
      intros z [<-|Hz]; [|now apply Hall].
      apply float_le_trans with x; [|exact Hle].
      now apply float_not_lt_le.
Qed.

(** The extremes of a series of floats without NaN bound its values. *)
Lemma series_extremes_float (sales_data : list float) :
  sales_data <> [] ->
  Forall (fun v => PrimFloat.is_nan v = false) sales_data ->
  (forall v, In v sales_data ->
     (series_min sales_data <=? v) = true /\
     (v <=? series_max sales_data) = true) /\
  (series_min sales_data <=? series_max sales_data) = true /\
  In (series_min sales_data) sales_data /\
  In (series_max sales_data) sales_data.
Proof.
  intros Hne Hclean. unfold series_min, series_max.
  rewrite (@dropna_clean float float_arith sales_data Hclean).
  destruct sales_data as [|x t]; [congruence|].
  inversion Hclean as [|? ? Hx Ht]; subst.
  destruct (@min_fold_float t x Hx Ht) as (Hn1 & Hle1 & Hall1).
  destruct (@max_fold_float t x Hx Ht) as (Hn2 & Hle2 & Hall2).
  split; [|split; [|split]].
  - intros v [<-|Hv]; split; auto.
  - apply float_le_trans with x; assumption.
  - clear. revert x. induction t as [|y t IH]; intros x; [now left|].
    cbn [fold_left]. destruct (fltb y x).
    + destruct (IH y) as [<-|H]; [right; now left|right; now right].
    + destruct (IH x) as [<-|H]; [now left|right; now right].
  - clear. revert x. induction t as [|y t IH]; intros x; [now left|].
    cbn [fold_left]. destruct (fltb x y).
    + destruct (IH y) as [<-|H]; [right; now left|right; now right].
    + destruct (IH x) as [<-|H]; [now left|right; now right].
Qed.

End FloatOrderMore.

(* ================================================================== *)
(** * Exact arithmetic: the order of the summary statistics *)
(* ================================================================== *)

Section Exact.

Variable sq : xnum -> xnum.

#[local] Instance EA : PyFloat xnum := exact_arith sq.

Lemma Qlt_bool_iff (p q : Q) : Qlt_bool p q = true <-> p < q.
Proof.
  unfold Qlt_bool. rewrite negb_true_iff.
  split.
  - intros H. apply Qnot_le_lt. intros Hle.
    apply Qle_bool_iff in Hle. congruence.
  - intros H. destruct (Qle_bool q p) eqn:E; [|reflexivity].
    apply Qle_bool_iff in E. exfalso. eapply Qlt_not_le; eauto.
Qed.

Lemma Qle_bool_false (p q : Q) : Qle_bool p q = false -> q < p.
Proof.
  intros H. apply Qnot_le_lt. intros Hle.
  apply Qle_bool_iff in Hle. congruence.
Qed.

Lemma dropna_finite (qs : list Q) : dropna (map XFin qs) = map XFin qs.
Proof.
  apply dropna_clean, Forall_forall. intros x Hx.
  apply in_map_iff in Hx. destruct Hx as [q [<- _]]. reflexivity.
Qed.

Lemma existsb_isnan_finite (qs : list Q) :
  existsb fisnan (map XFin qs) = false.
Proof.
  apply existsb_isnan_clean, Forall_forall. intros x Hx.
  apply in_map_iff in Hx. destruct Hx as [q [<- _]]. reflexivity.
Qed.

Lemma insert_finite (x : Q) (l : list Q) :
  insert (XFin x) (map XFin l) = map XFin (qinsert x l).
Proof.
  induction l as [|y t IH]; simpl; [reflexivity|].
  destruct (Qle_bool x y); simpl; [reflexivity|now rewrite IH].
Qed.

Lemma sort_finite (l : list Q) : sort (map XFin l) = map XFin (qsort l).
Proof.
  induction l as [|x t IH]; simpl; [reflexivity|].
  now rewrite IH, insert_finite.
Qed.

Lemma qinsert_length (x : Q) (l : list Q) :
  length (qinsert x l) = S (length l).
Proof.
  induction l as [|y t IH]; simpl; [reflexivity|].
  destruct (Qle_bool x y); simpl; [reflexivity|now rewrite IH].
Qed.

Lemma qsort_length (l : list Q) : length (qsort l) = length l.
Proof.
  induction l as [|x t IH]; simpl; [reflexivity|].
  now rewrite qinsert_length, IH.
Qed.

Lemma qinsert_In (x y : Q) (l : list Q) :
  In y (qinsert x l) <-> y = x \/ In y l.
Proof.
  induction l as [|z t IH]; simpl.
  - intuition congruence.
  - destruct (Qle_bool x z); simpl; rewrite ?IH; intuition congruence.
Qed.

Lemma qsort_In (y : Q) (l : list Q) : In y (qsort l) <-> In y l.
Proof.
  induction l as [|x t IH]; simpl; [tauto|].
  rewrite qinsert_In, IH. intuition congruence.
Qed.

Lemma qinsert_sorted (x : Q) (l : list Q) :
  StronglySorted Qle l -> StronglySorted Qle (qinsert x l).
Proof.
  induction 1 as [|y t Ht IH Hy]; simpl.
  - constructor; constructor.
  - destruct (Qle_bool x y) eqn:E.
    + apply Qle_bool_iff in E. constructor.
      * now constructor.
      * constructor; [exact E|].
        eapply Forall_impl; [|exact Hy]. intros z Hz. simpl in Hz.
        eapply Qle_trans; eauto.
    + apply Qle_bool_false in E. constructor; [exact IH|].
      apply Forall_forall. intros z Hz. apply qinsert_In in Hz.
      destruct Hz as [->|Hz].
      * now apply Qlt_le_weak.
      * rewrite Forall_forall in Hy. now apply Hy.
Qed.

Lemma qsort_sorted (l : list Q) : StronglySorted Qle (qsort l).
Proof.
  induction l as [|x t IH]; simpl; [constructor|].
  now apply qinsert_sorted.
Qed.

Lemma sorted_nth_le (l : list Q) :
  StronglySorted Qle l ->
  forall i j, (i <= j < length l)%nat -> nth i l 0 <= nth j l 0.
Proof.
  induction 1 as [|x t Ht IH Hx]; intros i j Hij; simpl in Hij; [lia|].
  destruct i as [|i], j as [|j]; simpl; try lia.
  - apply Qle_refl.
  - rewrite Forall_forall in Hx. apply Hx, nth_In. lia.
  - apply IH. lia.
Qed.

Lemma nth_finite (l : list Q) (i : nat) :
  (i < length l)%nat -> nth i (map XFin l) XNaN = XFin (nth i l 0).
Proof.
  intros Hi. rewrite (nth_indep _ XNaN (XFin 0)) by (now rewrite length_map).
  apply (map_nth XFin).
Qed.


Lemma min_fold (t : list Q) :
  forall x : Q,
  exists r,
    fold_left (fun m y : xnum => if fltb y m then y else m)
              (map XFin t) (XFin x) = XFin r /\
    In r (x :: t) /\ r <= x /\ (forall y, In y t -> r <= y).
Proof.
  induction t as [|y t IH]; intros x; simpl.
  - exists x. repeat split; [now left|apply Qle_refl|tauto].
  - destruct (Qlt_bool y x) eqn:E.
    + apply Qlt_bool_iff in E.
      destruct (IH y) as (r & Hr & Hin & Hle & Hall).
      exists r. repeat split; [exact Hr| |lra|].
      * destruct Hin as [<-|Hin]; [right; now left|right; now right].
      * intros z [<-|Hz]; [exact Hle|now apply Hall].
    + assert (Hxy : x <= y).
      { apply Qnot_lt_le. intros H. apply Qlt_bool_iff in H. congruence. }
      destruct (IH x) as (r & Hr & Hin & Hle & Hall).
      exists r. repeat split; [exact Hr| |exact Hle|].
      * destruct Hin as [<-|Hin]; [now left|right; now right].
      * intros z [<-|Hz]; [lra|now apply Hall].
Qed.

Lemma max_fold (t : list Q) :
  forall x : Q,
  exists r,
    fold_left (fun m y : xnum => if fltb m y then y else m)
              (map XFin t) (XFin x) = XFin r /\
    In r (x :: t) /\ x <= r /\ (forall y, In y t -> y <= r).
Proof.
  induction t as [|y t IH]; intros x; simpl.
  - exists x. repeat split; [now left|apply Qle_refl|tauto].
  - destruct (Qlt_bool x y) eqn:E.
    + apply Qlt_bool_iff in E.
      destruct (IH y) as (r & Hr & Hin & Hle & Hall).
      exists r. repeat split; [exact Hr| |lra|].
      * destruct Hin as [<-|Hin]; [right; now left|right; now right].
      * intros z [<-|Hz]; [exact Hle|now apply Hall].
    + assert (Hxy : y <= x).
      { apply Qnot_lt_le. intros H. apply Qlt_bool_iff in H. congruence. }
      destruct (IH x) as (r & Hr & Hin & Hle & Hall).
      exists r. repeat split; [exact Hr| |exact Hle|].
      * destruct Hin as [<-|Hin]; [now left|right; now right].
      * intros z [<-|Hz]; [lra|now apply Hall].
Qed.

(** [Series.min()] of finite values is one of them, below all of them. *)
Lemma series_min_exact (qs : list Q) :
  qs <> [] ->
  exists r, series_min (map XFin qs) = XFin r /\
            In r qs /\ (forall y, In y qs -> r <= y).
Proof.
  intros Hne. unfold series_min. rewrite dropna_finite.
  destruct qs as [|x t]; [congruence|]. simpl map.
  destruct (min_fold t x) as (r & Hr & Hin & Hle & Hall).
  exists r. repeat split; [exact Hr|exact Hin|].
  intros y [<-|Hy]; [exact Hle|now apply Hall].
Qed.

Lemma series_max_exact (qs : list Q) :
  qs <> [] ->
  exists r, series_max (map XFin qs) = XFin r /\
            In r qs /\ (forall y, In y qs -> y <= r).
Proof.
  intros Hne. unfold series_max. rewrite dropna_finite.
  destruct qs as [|x t]; [congruence|]. simpl map.
  destruct (max_fold t x) as (r & Hr & Hin & Hle & Hall).
  exists r. repeat split; [exact Hr|exact Hin|].
  intros y [<-|Hy]; [exact Hle|now apply Hall].
Qed.

(** numpy's [_lerp] between [a <= b] is [a + (b - a) * g] and stays
    between them. *)
Lemma lerp_between (a b g : Q) :
  a <= b -> 0 <= g -> g <= 1 ->
  exists r, _lerp (XFin a) (XFin b) (XFin g) = XFin r /\
            r == a + (b - a) * g /\ a <= r /\ r <= b.
Proof.
  intros Hab Hg0 Hg1. unfold _lerp. simpl.
  destruct (Qle_bool (inject_Z 5 / inject_Z 10) g); eexists;
    (split; [reflexivity|]); change (inject_Z 1) with 1;
    (split; [ring|split; nra]).
Qed.

Lemma py_index_finite (l : list Q) (i : Z) :
  (0 <= i < Z.of_nat (length l))%Z ->
  py_index (map XFin l) i = XFin (nth (Z.to_nat i) l 0).
Proof.
  intros Hi. unfold py_index.
  destruct (Z.ltb_spec i 0) as [H|_]; [lia|].
  apply nth_finite. lia.
Qed.

(** The virtual index of a quantile [0 <= q < 1] over at least two values
    falls between two neighbours of the sorted values; the quantile
    interpolates them by the fractional part of the index. *)
Lemma quantile_bounds (qs : list Q) (q : Q) :
  (2 <= length qs)%nat -> 0 <= q -> q < 1 ->
  let v := inject_Z (Z.of_nat (length qs) - 1) * q in
  let i := Z.to_nat (Qfloor v) in
  (i + 1 < length qs)%nat /\
  exists r,
    _quantile (map XFin qs) (XFin q) = XFin r /\
    r == nth i (qsort qs) 0
         + (nth (i + 1) (qsort qs) 0 - nth i (qsort qs) 0)
           * (v - inject_Z (Qfloor v)) /\
    nth i (qsort qs) 0 <= r /\ r <= nth (i + 1) (qsort qs) 0.
Proof.
  intros Hn Hq0 Hq1.
  set (m := (Z.of_nat (length qs) - 1)%Z).
  set (v := inject_Z m * q).
  assert (Hm : (1 <= m)%Z) by (unfold m; lia).
  assert (Hm' : 1 <= inject_Z m).
  { change 1 with (inject_Z 1). rewrite <- Zle_Qle. exact Hm. }
  assert (Hv0 : 0 <= v) by (unfold v; nra).
  assert (Hv1 : v < inject_Z m) by (unfold v; nra).
  pose proof (Qfloor_le v) as Hfl.
  pose proof (Qlt_floor v) as Hfu.
  assert (Hi0 : (0 <= Qfloor v)%Z).
  { change 0%Z with (Qfloor 0). now apply Qfloor_resp_le. }
  assert (Hi1 : (Qfloor v < m)%Z).
  { rewrite Zlt_Qlt. lra. }
  cbv zeta.
  split; [unfold m in Hi1; lia|].
  unfold _quantile. rewrite length_map, existsb_isnan_finite, sort_finite.
  fold m. cbn [fmul fleb fltb fisnan ffloor of_int fsub EA exact_arith
               xlift2 xcmp xisnan xfloor]. fold v.
  assert (Ea : Qle_bool (inject_Z m) v = false).
  { destruct (Qle_bool (inject_Z m) v) eqn:E; [|reflexivity].
    apply Qle_bool_iff in E. lra. }
  assert (Eb : Qlt_bool v (inject_Z 0) = false).
  { destruct (Qlt_bool v (inject_Z 0)) eqn:E; [|reflexivity].
    apply Qlt_bool_iff in E. change (inject_Z 0) with 0 in E. lra. }
  rewrite Ea, Eb. cbv beta iota.
  rewrite !py_index_finite by (rewrite qsort_length; unfold m in Hi1; lia).
  rewrite Z2Nat.inj_add by lia. change (Z.to_nat 1) with 1%nat.
  rewrite inject_Z_plus in Hfu. change (inject_Z 1) with 1 in Hfu.
  apply lerp_between; [|lra|lra].
  apply sorted_nth_le; [apply qsort_sorted|].
  rewrite qsort_length. unfold m in Hi1. lia.
Qed.

(** [Series.median()] lies between the two middle values, and is their
    mean when the count is even. *)
Lemma median_bounds (qs : list Q) :
  qs <> [] ->
  exists r,
    median (map XFin qs) = XFin r /\
    nth ((length qs - 1) / 2) (qsort qs) 0 <= r /\
    r <= nth (length qs / 2) (qsort qs) 0 /\
    (Nat.even (length qs) = true ->
     r == (nth ((length qs - 1) / 2) (qsort qs) 0
           + nth (length qs / 2) (qsort qs) 0) * (1 # 2)).
Proof.
  intros Hne. unfold median.
  rewrite dropna_finite, sort_finite, length_map, qsort_length.
  set (n := length qs).
  assert (Hn : (1 <= n)%nat).
  { unfold n. destruct qs; simpl; [congruence|lia]. }
  assert (Hlen : length (qsort qs) = n) by apply qsort_length.
  pose proof (qsort_sorted qs) as Hs.
  destruct n as [|k] eqn:En; [lia|]. rewrite <- En in *.
  assert (Hhalf : (n / 2 < n)%nat) by (apply Nat.div_lt; lia).
  destruct (Nat.even n) eqn:Ev.
  - apply Nat.even_spec in Ev. destruct Ev as [h Eh].
    assert (Eh2 : (n / 2 = h)%nat).
    { rewrite Eh, Nat.mul_comm. apply Nat.div_mul. lia. }
    assert (Eh1 : ((n - 1) / 2 = h - 1)%nat).
    { replace (n - 1)%nat with (1 + (h - 1) * 2)%nat by lia.
      rewrite Nat.div_add by lia. reflexivity. }
    rewrite Eh1, Eh2 in *.
    rewrite !nth_finite by lia.
    cbn [fadd fdiv of_int EA exact_arith xlift2 xdiv].
    change (Qeq_bool (inject_Z 2) 0) with false. cbv iota.
    eexists. split; [reflexivity|].
    assert (Hab : nth (h - 1) (qsort qs) 0 <= nth h (qsort qs) 0)
      by (apply sorted_nth_le; [exact Hs|lia]).
    change (inject_Z 2) with 2.
    assert (Ehalf : forall x : Q, x / 2 == x * (1 # 2))
      by (intros x; field).
    rewrite Ehalf.
    split; [lra|split; [lra|intros _; reflexivity]].
  - assert (Hodd : Nat.odd n = true)
      by (rewrite <- Nat.negb_even, Ev; reflexivity).
    apply Nat.odd_spec in Hodd. destruct Hodd as [h Eh].
    assert (Eh2 : (n / 2 = h)%nat).
    { rewrite Eh. replace (2 * h + 1)%nat with (1 + h * 2)%nat by lia.
      rewrite Nat.div_add by lia. reflexivity. }
    assert (Eh1 : ((n - 1) / 2 = h)%nat).
    { replace (n - 1)%nat with (h * 2)%nat by lia.
      apply Nat.div_mul. lia. }
    rewrite Eh1, Eh2 in *.
    rewrite nth_finite by lia.
    eexists. split; [reflexivity|].
    split; [apply Qle_refl|split; [apply Qle_refl|discriminate]].
Qed.

Lemma percentile_is_quantile (xs : list xnum) (p : Z) :
  np_percentile xs (of_int p) = _quantile xs (XFin (inject_Z p / inject_Z 100)).
Proof. reflexivity. Qed.

Lemma floor_of_percent (m p : Z) :
  Qfloor (inject_Z m * (inject_Z p / inject_Z 100)) = (m * p / 100)%Z.
Proof.
  unfold Qfloor, Qdiv, Qmult, Qinv, inject_Z. simpl.
  now rewrite Z.mul_1_r.
Qed.

(** The order of the five statistics on three values or more. *)
Lemma summary_chain_long (qs : list Q) :
  (3 <= length qs)%nat ->
  exists rmin r25 rmed r75 rmax,
    series_min (map XFin qs) = XFin rmin /\
    np_percentile (map XFin qs) (of_int 25) = XFin r25 /\
    median (map XFin qs) = XFin rmed /\
    np_percentile (map XFin qs) (of_int 75) = XFin r75 /\
    series_max (map XFin qs) = XFin rmax /\
    rmin <= r25 /\ r25 <= rmed /\ rmed <= r75 /\ r75 <= rmax.
Proof.
  intros Hn.
  assert (Hne : qs <> []) by (destruct qs; simpl in Hn; [lia|congruence]).
  destruct (series_min_exact Hne) as (rmin & Emin & _ & Hmin).
  destruct (series_max_exact Hne) as (rmax & Emax & _ & Hmax).
  destruct (median_bounds Hne) as (rmed & Emed & Hmed1 & Hmed2 & _).
  assert (H25 : 0 <= inject_Z 25 / inject_Z 100 /\
                inject_Z 25 / inject_Z 100 < 1)
    by (split; [discriminate|reflexivity]).
  assert (H75 : 0 <= inject_Z 75 / inject_Z 100 /\
                inject_Z 75 / inject_Z 100 < 1)
    by (split; [discriminate|reflexivity]).
  destruct (@quantile_bounds qs (inject_Z 25 / inject_Z 100))
    as (Hi25 & r25 & E25 & _ & Hlo25 & Hhi25); [lia|tauto|tauto|].
  destruct (@quantile_bounds qs (inject_Z 75 / inject_Z 100))
    as (Hi75 & r75 & E75 & _ & Hlo75 & Hhi75); [lia|tauto|tauto|].
  rewrite floor_of_percent in *.
  set (n := length qs) in *.
  set (i25 := Z.to_nat ((Z.of_nat n - 1) * 25 / 100)) in *.
  set (i75 := Z.to_nat ((Z.of_nat n - 1) * 75 / 100)) in *.
  assert (Hidx1 : (i25 + 1 <= (n - 1) / 2)%nat).
  { unfold i25. apply Nat2Z.inj_le.
    rewrite Nat2Z.inj_div, Nat2Z.inj_add, Z2Nat.id, Nat2Z.inj_sub by
        (try apply Z.div_pos; lia).
    simpl Z.of_nat. Z.div_mod_to_equations. lia. }
  assert (Hidx2 : (n / 2 <= i75)%nat).
  { unfold i75. apply Nat2Z.inj_le.
    rewrite Nat2Z.inj_div, Z2Nat.id by (try apply Z.div_pos; lia).
    simpl Z.of_nat. Z.div_mod_to_equations. lia. }
  pose proof (qsort_sorted qs) as Hs.
  pose proof (qsort_length qs) as Hlen. fold n in Hlen.
  assert (Hin : forall k, (k < n)%nat -> In (nth k (qsort qs) 0) qs).
  { intros k Hk. apply qsort_In, nth_In. lia. }
  assert (Hmono : forall i j, (i <= j < n)%nat ->
                              nth i (qsort qs) 0 <= nth j (qsort qs) 0).
  { intros i j Hij. apply sorted_nth_le; [exact Hs|lia]. }
  assert (Hhalf : (n / 2 < n)%nat) by (apply Nat.div_lt; lia).
  exists rmin, r25, rmed, r75, rmax.
  rewrite !percentile_is_quantile.
  repeat split; try assumption.
  - apply Qle_trans with (nth i25 (qsort qs) 0); [|exact Hlo25].
    apply Hmin, Hin. lia.
  - apply Qle_trans with (nth (i25 + 1) (qsort qs) 0); [exact Hhi25|].
    apply Qle_trans with (nth ((n - 1) / 2) (qsort qs) 0); [|exact Hmed1].
    apply Hmono. split; [exact Hidx1|].
    apply Nat.le_lt_trans with (n / 2)%nat; [|exact Hhalf].
    apply Nat.Div0.div_le_mono. lia.
  - apply Qle_trans with (nth (n / 2) (qsort qs) 0); [exact Hmed2|].
    apply Qle_trans with (nth i75 (qsort qs) 0); [|exact Hlo75].
    apply Hmono. lia.
  - apply Qle_trans with (nth (i75 + 1) (qsort qs) 0); [exact Hhi75|].
    apply Hmax, Hin. lia.
Qed.


Lemma summary_chain_one (a : Q) :
  exists rmin r25 rmed r75 rmax,
    series_min (map XFin [a]) = XFin rmin /\
    np_percentile (map XFin [a]) (of_int 25) = XFin r25 /\
    median (map XFin [a]) = XFin rmed /\
    np_percentile (map XFin [a]) (of_int 75) = XFin r75 /\
    series_max (map XFin [a]) = XFin rmax /\
    rmin <= r25 /\ r25 <= rmed /\ rmed <= r75 /\ r75 <= rmax.
Proof.
  assert (E : forall c : Q, a - (a - a) * c == a) by (intros c; ring).
  exists a. eexists. exists a. eexists. exists a.
  split; [reflexivity|]. split; [reflexivity|].
  split; [reflexivity|]. split; [reflexivity|].
  split; [reflexivity|].
  rewrite !E. repeat split; apply Qle_refl.
Qed.

Lemma summary_chain_two (a b : Q) :
  exists rmin r25 rmed r75 rmax,
    series_min (map XFin [a; b]) = XFin rmin /\
    np_percentile (map XFin [a; b]) (of_int 25) = XFin r25 /\
    median (map XFin [a; b]) = XFin rmed /\
    np_percentile (map XFin [a; b]) (of_int 75) = XFin r75 /\
    series_max (map XFin [a; b]) = XFin rmax /\
    rmin <= r25 /\ r25 <= rmed /\ rmed <= r75 /\ r75 <= rmax.
Proof.
  assert (Hne : [a; b] <> []) by discriminate.
  destruct (series_min_exact Hne) as (rmin & Emin & _ & Hmin).
  destruct (series_max_exact Hne) as (rmax & Emax & _ & Hmax).
  destruct (median_bounds Hne) as (rmed & Emed & _ & _ & Hmed).
  destruct (@quantile_bounds [a; b] (inject_Z 25 / inject_Z 100))
    as (_ & r25 & E25 & V25 & _);
    [simpl; lia|discriminate|reflexivity|].
  destruct (@quantile_bounds [a; b] (inject_Z 75 / inject_Z 100))
    as (_ & r75 & E75 & V75 & _);
    [simpl; lia|discriminate|reflexivity|].
  cbv zeta in V25, V75.
  change (length [a; b]) with 2%nat in *.
  specialize (Hmed eq_refl).
  change ((2 - 1) / 2)%nat with 0%nat in Hmed.
  change (2 / 2)%nat with 1%nat in Hmed.
  set (v25 := inject_Z (Z.of_nat 2 - 1) * (inject_Z 25 / inject_Z 100)) in *.
  set (v75 := inject_Z (Z.of_nat 2 - 1) * (inject_Z 75 / inject_Z 100)) in *.
  change (Z.to_nat (Qfloor v25)) with 0%nat in V25.
  change (Z.to_nat (Qfloor v75)) with 0%nat in V75.
  assert (G25 : v25 - inject_Z (Qfloor v25) == 1 # 4) by reflexivity.
  assert (G75 : v75 - inject_Z (Qfloor v75) == 3 # 4) by reflexivity.
  rewrite G25 in V25. rewrite G75 in V75.
  change (0 + 1)%nat with 1%nat in *.
  pose proof (qsort_sorted [a; b]) as Hs.
  assert (H01 : nth 0 (qsort [a; b]) 0 <= nth 1 (qsort [a; b]) 0).
  { apply sorted_nth_le; [exact Hs|]. rewrite qsort_length. simpl. lia. }
  assert (Hin0 : In (nth 0 (qsort [a; b]) 0) [a; b]).
  { apply qsort_In, nth_In. rewrite qsort_length. simpl. lia. }
  assert (Hin1 : In (nth 1 (qsort [a; b]) 0) [a; b]).
  { apply qsort_In, nth_In. rewrite qsort_length. simpl. lia. }
  apply Hmin in Hin0. apply Hmax in Hin1.
  set (s0 := nth 0 (qsort [a; b]) 0) in *.
  set (s1 := nth 1 (qsort [a; b]) 0) in *.
  exists rmin, r25, rmed, r75, rmax.
  rewrite !percentile_is_quantile.
  repeat split; try assumption; lra.
Qed.

(** In exact arithmetic the statistics of a non-empty series of finite
    values are finite and ordered. *)
Lemma summary_chain (qs : list Q) :
  qs <> [] ->
  exists rmin r25 rmed r75 rmax,
    series_min (map XFin qs) = XFin rmin /\
    np_percentile (map XFin qs) (of_int 25) = XFin r25 /\
    median (map XFin qs) = XFin rmed /\
    np_percentile (map XFin qs) (of_int 75) = XFin r75 /\
    series_max (map XFin qs) = XFin rmax /\
    rmin <= r25 /\ r25 <= rmed /\ rmed <= r75 /\ r75 <= rmax.
Proof.
  intros Hne. destruct qs as [|a [|b [|c t]]].
  - congruence.
  - apply summary_chain_one.
  - apply summary_chain_two.
  - apply summary_chain_long. simpl. lia.
Qed.


Lemma show_metrics_on_finite (qs : list Q) :
  qs <> [] -> dropna (map XFin qs) <> [].
Proof.
  intros Hne. rewrite dropna_finite. destruct qs; simpl; congruence.
Qed.

(** The interquartile range is not negative, and a value on a fence is
    not an outlier. *)
Lemma tukey_exact (qs : list Q) :
  qs <> [] ->
  exists m,
    show_metrics_on (map XFin qs) = Ok m /\
    fleb (of_int 0) (IQR m) = true /\
    (forall v,
       feqb v (lower_bound m) = true \/ feqb v (upper_bound m) = true ->
       ~ In v (outliers m)).
Proof.
  intros Hne.
  destruct (show_metrics_tukey (map XFin qs) (show_metrics_on_finite Hne))
    as (m & Hm & _ & EQ1 & EQ3 & EI & EL & EU & Hout).
  destruct (summary_chain Hne)
    as (rmin & r25 & rmed & r75 & rmax & _ & E25 & _ & E75 & _
        & _ & H2 & H3 & _).
  exists m. split; [exact Hm|].
  rewrite E25 in EQ1. rewrite E75 in EQ3.
  set (k := inject_Z 15 / inject_Z 10).
  assert (Hk : k == 3 # 2) by reflexivity.
  assert (EI' : IQR m = XFin (r75 - r25))
    by (rewrite EI, EQ1, EQ3; reflexivity).
  assert (EL' : lower_bound m = XFin (r25 - k * (r75 - r25)))
    by (rewrite EL, EI', EQ1; reflexivity).
  assert (EU' : upper_bound m = XFin (r75 + k * (r75 - r25)))
    by (rewrite EU, EI', EQ3; reflexivity).
  split.
  - rewrite EI'. cbn [fleb of_int EA exact_arith xcmp].
    apply Qle_bool_iff. change (inject_Z 0) with 0. lra.
  - intros v Heq Hin. apply Hout in Hin. destruct Hin as [Hin Hcmp].
    apply in_map_iff in Hin. destruct Hin as [x [<- _]].
    rewrite EL', EU' in Heq, Hcmp.
    cbn [feqb fltb EA exact_arith xcmp] in Heq, Hcmp.
    rewrite !Qlt_bool_iff in Hcmp.
    destruct Heq as [Heq|Heq]; apply Qeq_bool_iff in Heq;
      rewrite Hk in *; destruct Hcmp as [Hc|Hc]; nra.
Qed.

Lemma fsum_constant_exact (d : Q) (k : nat) :
  forall acc : Q,
  exists s,
    fold_left fadd (repeat (XFin d) k) (XFin acc) = XFin s /\
    s == acc + inject_Z (Z.of_nat k) * d.
Proof.
  induction k as [|k IH]; intros acc.
  - exists acc. split; [reflexivity|]. simpl. ring.
  - cbn [repeat fold_left fadd EA exact_arith xlift2].
    destruct (IH (acc + d)) as (s & Es & Hs).
    exists s. split; [exact Es|].
    rewrite Hs, Nat2Z.inj_succ, <- Z.add_1_r, inject_Z_plus.
    change (inject_Z 1) with 1. ring.
Qed.

(** In exact arithmetic, a constant series of at least two values has a
    mean difference equal to 0, labelled stable. *)
Lemma constant_trend_zero_exact (c : Q) (n : nat) :
  (2 <= n)%nat ->
  exists r,
    sales_trend_of (repeat (XFin c) n) = XFin r /\
    r == 0 /\
    trend_insight (XFin r) = Stable.
Proof.
  intros Hn. destruct n as [|[|k]]; try lia.
  unfold sales_trend_of.
  change (repeat (XFin c) (S (S k))) with (XFin c :: repeat (XFin c) (S k)).
  unfold diff. rewrite diff_from_constant.
  change (fsub (XFin c) (XFin c)) with (XFin (c - c)).
  unfold mean.
  assert (Hdrop : dropna (fnan :: repeat (XFin (c - c)) (S k))
                  = repeat (XFin (c - c)) (S k)).
  { change (dropna (fnan :: repeat (XFin (c - c)) (S k)))
      with (dropna (repeat (XFin (c - c)) (S k))).
    apply dropna_clean, Forall_forall. intros x Hx.
    apply repeat_spec in Hx. now subst. }
  rewrite Hdrop. cbn [repeat].
  change (XFin (c - c) :: repeat (XFin (c - c)) k)
    with (repeat (XFin (c - c)) (S k)).
  unfold fsum, flen. rewrite repeat_length.
  destruct (fsum_constant_exact (c - c) (S k) (inject_Z 0))
    as (s & Es & Hs).
  change (of_int 0) with (XFin (inject_Z 0)). rewrite Es.
  cbn [fdiv of_int EA exact_arith xdiv].
  assert (Hpos : 0 < inject_Z (Z.of_nat (S k))).
  { change 0 with (inject_Z 0). rewrite <- Zlt_Qlt. lia. }
  destruct (Qeq_bool (inject_Z (Z.of_nat (S k))) 0) eqn:E.
  { apply Qeq_bool_iff in E. lra. }
  assert (Hs0 : s == 0) by (rewrite Hs; change (inject_Z 0) with 0; ring).
  assert (Hr : s / inject_Z (Z.of_nat (S k)) == 0).
  { rewrite Hs0. field. lra. }
  eexists. split; [reflexivity|]. split; [exact Hr|].
  unfold trend_insight. cbn [fltb of_int EA exact_arith xcmp].
  change (inject_Z 0) with 0.
  destruct (Qlt_bool 0 (s / inject_Z (Z.of_nat (S k)))) eqn:E1.
  { apply Qlt_bool_iff in E1. lra. }
  destruct (Qlt_bool (s / inject_Z (Z.of_nat (S k))) 0) eqn:E2.
  { apply Qlt_bool_iff in E2. lra. }
  reflexivity.
Qed.

End Exact.

(* ================================================================== *)
(** * C1: show_metrics on a column without values *)
(* ================================================================== *)

(** C1, as stated, fails: on the empty series [show_metrics] does not end
    with an EmptyInputError.  Its mean and median are NaN, and then
    [mode().values[0]] raises an IndexError. *)
Lemma show_metrics_empty_is_IndexError :
  mean ([] : list float) = nan /\
  median ([] : list float) = nan /\
  raises "IndexError" (show_metrics_on ([] : list float)) /\
  ~ raises "EmptyInputError" (show_metrics_on ([] : list float)).
Proof.
  repeat split.
  - eexists. reflexivity.
  - intros [msg H]. discriminate H.
Qed.

(** C1, amended: for every series without a value (empty, or all cells
    missing), in any arithmetic, the mean and the median are NaN and
    [show_metrics] ends with the IndexError of [mode().values[0]]. *)
Theorem show_metrics_without_values :
  forall (F : Type) (A : PyFloat F) (sales_data : list F),
    dropna sales_data = [] ->
    mean sales_data = fnan /\
    median sales_data = fnan /\
    show_metrics_on sales_data =
      Raise (IndexError "index 0 is out of bounds for axis 0 with size 0").
Proof.
  intros F A sales_data Hv. repeat split.
  - unfold mean. now rewrite Hv.
  - unfold median. now rewrite Hv.
  - unfold show_metrics_on. now rewrite (mode_no_values _ Hv).
Qed.

Lemma show_metrics_without_values_witness :
  mean [nan; nan] = nan /\
  median [nan; nan] = nan /\
  show_metrics_on [nan; nan] =
    Raise (IndexError "index 0 is out of bounds for axis 0 with size 0").
Proof.
  apply (@show_metrics_without_values float float_arith [nan; nan]).
  reflexivity.
Defined.

(* ================================================================== *)
(** * C2: the correlation insight *)
(* ================================================================== *)

Section CorrelationInsight.

Local Open Scope float_scope.

(** C2, as stated, fails at r = NaN, which [pearsonr] returns for a
    constant column: the insight is "little to no correlation" although
    [r <= 0.3] is false. *)
Lemma correlation_nan_is_negligible :
  pearsonr [1; 1; 1] [1; 2; 3] = Ok nan /\
  scatter_chart [year_row 2000 1; year_row 2001 1; year_row 2002 1]
    Global_Sales_region NA_Sales_region = Ok (nan, Negligible) /\
  correlation_insight nan = Negligible /\
  (nan <=? 0.3) = false.
Proof. repeat split. Qed.

(** C2, amended: the insight follows the signed r, with "strong" iff
    [r > 0.75], "moderate" iff [0.5 < r <= 0.75], "weak" iff
    [0.3 < r <= 0.5], and "little to no correlation" iff [r <= 0.3] or r
    is NaN; 0.8 is strong, 0.6 moderate, 0.35 weak, and 0.1 and -0.9 are
    little to no correlation. *)
Theorem correlation_insight_thresholds :
  (forall r : float,
     (correlation_insight r = Strong <-> (0.75 <? r) = true) /\
     (correlation_insight r = Moderate <->
        (0.5 <? r) = true /\ (r <=? 0.75) = true) /\
     (correlation_insight r = Weak <->
        (0.3 <? r) = true /\ (r <=? 0.5) = true) /\
     (correlation_insight r = Negligible <->
        (r <=? 0.3) = true \/ PrimFloat.is_nan r = true)) /\
  correlation_insight 0.8 = Strong /\
  correlation_insight 0.6 = Moderate /\
  correlation_insight 0.35 = Weak /\
  correlation_insight 0.1 = Negligible /\
  correlation_insight (-0.9) = Negligible.
Proof.
  split; [|repeat split].
  intros r. rewrite correlation_insight_float.
  assert (H35 : (0.3 <? 0.5) = true) by reflexivity.
  assert (H57 : (0.5 <? 0.75) = true) by reflexivity.
  assert (H37 : (0.3 <? 0.75) = true) by reflexivity.
  assert (N3 : PrimFloat.is_nan 0.3 = false) by reflexivity.
  assert (N5 : PrimFloat.is_nan 0.5 = false) by reflexivity.
  assert (N7 : PrimFloat.is_nan 0.75 = false) by reflexivity.
  pose proof (@float_le_not_gt r 0.3 0.5) as T35.
  pose proof (@float_le_not_gt r 0.3 0.75) as T37.
  pose proof (@float_le_not_gt r 0.5 0.75) as T57.
  pose proof (@float_nan_not_gt 0.75 r) as Nn7.
  pose proof (@float_nan_not_gt 0.5 r) as Nn5.
  pose proof (@float_nan_not_gt 0.3 r) as Nn3.
  destruct (float_order_cases 0.75 r) as [U7 A7 B7 C7 D7 E7|? ? A7 B7 C7 D7 E7
                                          |? ? A7 B7 C7 D7 E7|? ? A7 B7 C7 D7 E7];
    rewrite ?A7 in *;
    destruct (float_order_cases 0.5 r) as [U5 A5 B5 C5 D5 E5|? ? A5 B5 C5 D5 E5
                                          |? ? A5 B5 C5 D5 E5|? ? A5 B5 C5 D5 E5];
    rewrite ?A5 in *;
    destruct (float_order_cases 0.3 r) as [U3 A3 B3 C3 D3 E3|? ? A3 B3 C3 D3 E3
                                          |? ? A3 B3 C3 D3 E3|? ? A3 B3 C3 D3 E3];
    rewrite ?A3 in *;
    repeat split; intros; try discriminate; try reflexivity;
    try congruence; try tauto;
    try (exfalso; intuition congruence);
    try (right; intuition congruence);
    try (left; congruence).
Qed.

End CorrelationInsight.

(* ================================================================== *)
(** * C3 and C4: the Tukey rule and the order of the summary *)
(* ================================================================== *)

Section SummaryOverflow.

Local Open Scope float_scope.



End SummaryOverflow.

Section SummaryLaws.

Variable sq : xnum -> xnum.

#[local] Instance exact_summary : PyFloat xnum := exact_arith sq.



End SummaryLaws.

Section SummaryExamples.

Local Open Scope float_scope.



(** The same laws evaluated in binary64, on sales figures as the data set
    holds them. *)
Lemma summary_of_sales_figures_binary64 :
  exists m,
    show_metrics_on [0.01; 3.58; 0.4; 82.74; 1.2; 0.4]%float = Ok m /\
    let '(p25, _, p75) := percentiles m in
    fleb (min_sales m) p25 = true /\
    fleb p25 (median_sales m) = true /\
    fleb (median_sales m) p75 = true /\
    fleb p75 (max_sales m) = true /\
    fleb (of_int 0) (range_sales m) = true /\
    fleb (of_int 0) (IQR m) = true /\
    outliers m = [82.74]%float.
Proof.
  eexists. split; [vm_compute; reflexivity|]. repeat split.
Qed.

End SummaryExamples.

(* ================================================================== *)
(** * C5, C6: the summary of [1,2,3,4,5] and the spread insight *)
(* ================================================================== *)

Section SummaryFloat.

Local Open Scope float_scope.

(** C5: on [1,2,3,4,5] the summary has mean 3, median 3, variance
    10/(5-1) = 2.5 and standard deviation sqrt 2.5 = 1.5811388300841898
    (the n-1 denominator; between 1.58105 and 1.58115), P25 = 2, P50 = 3,
    P75 = 4, IQR = 2, fences -1 and 7, and no outlier; percentiles
    interpolate linearly between neighbours, as on [1,2,3,4], whose P25
    is 1.75 and P75 is 3.25. *)
Theorem summary_of_one_to_five :
  (exists m,
     show_metrics_on [1; 2; 3; 4; 5] = Ok m /\
     mean_sales m = 3 /\
     median_sales m = 3 /\
     var_sales m = 2.5 /\
     var_sales m = 10 / (5 - 1) /\
     std_sales m = sqrt 2.5 /\
     std_sales m = 1.5811388300841898 /\
     (1.58105 <? std_sales m) = true /\
     (std_sales m <? 1.58115) = true /\
     percentiles m = (2, 3, 4) /\
     Q1 m = 2 /\ Q3 m = 4 /\ IQR m = 2 /\
     lower_bound m = -1 /\ upper_bound m = 7 /\
     outliers m = [] /\
     outlier_insight m = NoOutliers) /\
  np_percentile [1; 2; 3; 4] 25 = 1 + (2 - 1) * 0.75 /\
  np_percentile [1; 2; 3; 4] 25 = 1.75 /\
  np_percentile [1; 2; 3; 4] 75 = 4 - (4 - 3) * (1 - 0.25) /\
  np_percentile [1; 2; 3; 4] 75 = 3.25.
Proof.
  split; [|repeat split].
  eexists. split; [vm_compute; reflexivity|]. repeat split.
Qed.

(** C6: the spread insight of [show_metrics] is a threshold function of
    the standard deviation alone: "quite wide" iff [std_sales > 1],
    "relatively consistent" otherwise; 1.0 is consistent, 1.0001 is
    wide; and [show_metrics] applies it to [sales_data.std()]. *)
Theorem spread_insight_threshold :
  (forall std_sales : float,
     (spread_of std_sales = Wide <-> (1.0 <? std_sales) = true) /\
     (spread_of std_sales = Consistent <-> (1.0 <? std_sales) = false)) /\
  spread_of 1.0 = Consistent /\
  spread_of 1.0001 = Wide /\
  (forall sales_data : list float,
     match show_metrics_on sales_data with
     | Ok m => std_sales m = std sales_data /\
               spread_insight m = spread_of (std_sales m)
     | Raise _ => True
     end).
Proof.
  split; [|repeat split].
  - intros s. rewrite spread_of_float.
    destruct (1 <? s); repeat split; congruence.
  - intros sales_data. unfold show_metrics_on.
    destruct (first_value (mode sales_data)); simpl; auto.
Qed.

End SummaryFloat.

(* ================================================================== *)
(** * C7: the trend of sales_over_time_chart *)
(* ================================================================== *)

Section Trend.

Variable sq : xnum -> xnum.

#[local] Instance exact_trend : PyFloat xnum := exact_arith sq.

Local Open Scope float_scope.

(** C7, as stated, fails twice.  A constant series of one value has no
    difference to average: its mean difference is NaN, not 0, and the
    trend is still labelled stable.  And the chart differences the rows
    as they come: on rows that are not in year order it reports the
    opposite of the trend in ascending year order. *)
Lemma trend_of_single_value_is_nan :
  sales_trend_of [5] = nan /\
  (sales_trend_of [5] =? 0) = false /\
  trend_insight (sales_trend_of [5]) = Stable /\
  sales_over_time_chart [year_row 2000 5] Global_Sales_region
    = Some (nan, Stable) /\
  sales_over_time_chart [year_row 2001 5; year_row 2000 1]
    Global_Sales_region = Some (-4, Decreasing) /\
  trend_in_year_order [year_row 2001 5; year_row 2000 1]
    Global_Sales_region = 4.
Proof. repeat split. Qed.

(** C7, amended.  On rows in ascending year order the chart reports the
    mean first-difference of the sales in that order.  The label is
    "increasing" iff it is [> 0], "decreasing" iff it is [< 0], and
    "stable" iff it is [= 0] or NaN.  For every constant series of at
    least two finite values the mean difference is 0 and the label is
    stable (in binary64 for up to 2^53 values, in exact arithmetic for
    any number of them); a series of one value, or none, has mean
    difference NaN, labelled stable as well. *)
Theorem sales_trend_in_year_order :
  (forall (F : Type) (A : PyFloat F) (data : list (SalesRecord F))
          (selected_region : Region),
     ascending_years (filtered_data data selected_region) ->
     sales_over_time_chart data selected_region =
     if forallb (fun row => fisnan (Year row)) data then None
     else Some (trend_in_year_order data selected_region,
                trend_insight (trend_in_year_order data selected_region))) /\
  (forall sales_trend : float,
     (trend_insight sales_trend = Increasing <-> (0 <? sales_trend) = true) /\
     (trend_insight sales_trend = Decreasing <-> (sales_trend <? 0) = true) /\
     (trend_insight sales_trend = Stable <->
        (sales_trend =? 0) = true \/ PrimFloat.is_nan sales_trend = true)) /\
  (forall (c : float) (n : nat),
     finite c -> (2 <= n)%nat -> (Z.of_nat n <= 2 ^ 53)%Z ->
     sales_trend_of (repeat c n) = 0 /\
     trend_insight (sales_trend_of (repeat c n)) = Stable) /\
  (forall (c : Q) (n : nat),
     (2 <= n)%nat ->
     exists r : Q,
       sales_trend_of (repeat (XFin c) n) = XFin r /\
       (r == 0)%Q /\
       trend_insight (XFin r) = Stable) /\
  (forall c : float,
     sales_trend_of [c] = nan /\
     trend_insight (sales_trend_of [c]) = Stable) /\
  sales_trend_of ([] : list float) = nan.
Proof.
  split; [|split; [|split; [|split; [|split]]]].
  - intros F A data region. apply sales_over_time_chart_ascending.
  - intros t. rewrite trend_insight_float.
    assert (N0 : PrimFloat.is_nan 0 = false) by reflexivity.
    destruct (float_order_cases t 0) as [U A1 B1 C1 D1 E1|? ? A1 B1 C1 D1 E1
                                          |? ? A1 B1 C1 D1 E1|? ? A1 B1 C1 D1 E1];
      rewrite A1, C1, D1; repeat split; intros; try discriminate;
      try reflexivity; try tauto;
      try (destruct U; [right; assumption|congruence]);
      try (exfalso; intuition congruence).
  - intros c n Hc Hn Hbig.
    rewrite (constant_trend_zero Hc Hn Hbig). split; reflexivity.
  - intros c n Hn. exact (constant_trend_zero_exact sq c Hn).
  - intros c. split; reflexivity.
  - reflexivity.
Qed.

End Trend.

Lemma sales_trend_in_year_order_witness :
  sales_trend_of (repeat 7.5%float 3) = 0%float /\
  trend_insight (sales_trend_of (repeat 7.5%float 3)) = Stable.
Proof.
  apply (proj1 (proj2 (proj2 (sales_trend_in_year_order (fun a => a))))).
  - reflexivity.
  - lia.
  - vm_compute. discriminate.
Defined.

(* ================================================================== *)
(** * C8: pearsonr on series of unequal length *)
(* ================================================================== *)

(** C8, as stated, fails: series of unequal length are rejected, but by
    scipy's ValueError; the code has no LengthMismatchError. *)
Lemma pearsonr_mismatch_is_ValueError :
  pearsonr [1%float; 2%float; 3%float] [1%float; 2%float] =
    Raise (ValueError "x and y must have the same length.") /\
  ~ raises "LengthMismatchError"
      (pearsonr [1%float; 2%float; 3%float] [1%float; 2%float]).
Proof.
  split; [reflexivity|]. intros [msg H]. discriminate H.
Qed.

(** C8, amended: in any arithmetic, [pearsonr] on two series of unequal
    length raises ValueError "x and y must have the same length." and
    returns no coefficient (nothing is truncated); and [scatter_chart]
    itself always passes two columns of the same table, which have the
    same length. *)
Theorem pearsonr_unequal_lengths :
  forall (F : Type) (A : PyFloat F),
    (forall x y : list F,
       length x <> length y ->
       pearsonr x y =
         Raise (ValueError "x and y must have the same length.")) /\
    (forall (data : list (SalesRecord F)) (region_x region_y : Region),
       length (column (region_mapping region_x) data) =
       length (column (region_mapping region_y) data)).
Proof.
  intros F A. split.
  - intros x y Hlen. unfold pearsonr.
    destruct (Nat.eqb_spec (length x) (length y)) as [E|_];
      [contradiction|reflexivity].
  - intros data rx ry. unfold column. now rewrite !length_map.
Qed.

Lemma pearsonr_unequal_lengths_witness :
  pearsonr [1%float; 2%float; 3%float] [4%float; 5%float] =
    Raise (ValueError "x and y must have the same length.").
Proof.
  apply (proj1 (@pearsonr_unequal_lengths float float_arith)).
  simpl. discriminate.
Defined.

(* ================================================================== *)
(** * C9: the Tukey rule at its two call sites *)
(* ================================================================== *)

Section TukeySites.

Local Open Scope float_scope.

(** Where the two call sites agree: for every non-empty series without a
    missing value, [show_metrics] returns, and its IQR, lower fence,
    upper fence and number of outliers (from [np.percentile]) are the
    values that the loop of [box_plot_chart] computes (from
    [Series.quantile]). *)
Lemma tukey_sites_agree :
  forall sales_data : list float,
    sales_data <> [] ->
    Forall (fun v => PrimFloat.is_nan v = false) sales_data ->
    exists m,
      show_metrics_on sales_data = Ok m /\
      IQR m = iqr_sales (box_plot_region_on sales_data) /\
      lower_bound m = box_lower_fence sales_data /\
      upper_bound m = box_upper_fence sales_data /\
      length (outliers m) = box_outliers (box_plot_region_on sales_data).
Proof.
  intros sales_data Hne Hclean.
  assert (Hdrop : dropna sales_data = sales_data)
    by (apply dropna_clean; exact Hclean).
  destruct (@show_metrics_on_Ok float float_arith sales_data)
    as [mv [_ Hm]]; [now rewrite Hdrop|].
  eexists. split; [exact Hm|].
  unfold box_lower_fence, box_upper_fence, box_plot_region_on.
  cbn [IQR lower_bound upper_bound outliers iqr_sales box_outliers].
  rewrite Hdrop.
  rewrite !(@quantile_clean float float_arith sales_data _ Hne Hclean).
  change (fmul (dec 25 100) (of_int 100)) with (of_int 25 : float).
  change (fmul (dec 75 100) (of_int 100)) with (of_int 75 : float).
  repeat split.
Qed.

Lemma tukey_sites_agree_witness :
  exists m,
    show_metrics_on [1; 2; 3; 4; 100] = Ok m /\
    IQR m = iqr_sales (box_plot_region_on [1; 2; 3; 4; 100]) /\
    lower_bound m = box_lower_fence [1; 2; 3; 4; 100] /\
    upper_bound m = box_upper_fence [1; 2; 3; 4; 100] /\
    length (outliers m) = box_outliers (box_plot_region_on [1; 2; 3; 4; 100]).
Proof.
  apply (tukey_sites_agree (sales_data := [1; 2; 3; 4; 100])).
  - discriminate.
  - repeat constructor.
Defined.

(** C9 fails on the code.  [show_metrics] takes the column as it is
    (line 49), where [box_plot_chart] (line 412) and [histogram_chart]
    (line 311) drop the missing cells first.  On every column that has a
    value and a missing cell, [np.percentile] gives NaN to
    [show_metrics]: its IQR and fences are NaN and it finds no outlier.
    On [1, 2, 3, 4, 100, NaN] the loop of [box_plot_chart] computes
    IQR 2, fences -1 and 7, and one outlier. *)
Theorem tukey_sites_with_missing_cell :
  (forall sales_data : list float,
     existsb PrimFloat.is_nan sales_data = true ->
     dropna sales_data <> [] ->
     exists m,
       show_metrics_on sales_data = Ok m /\
       IQR m = nan /\ lower_bound m = nan /\ upper_bound m = nan /\
       outliers m = []) /\
  (exists m,
     show_metrics_on [1; 2; 3; 4; 100; nan] = Ok m /\
     IQR m = nan /\ lower_bound m = nan /\ upper_bound m = nan /\
     outliers m = [] /\
     iqr_sales (box_plot_region_on [1; 2; 3; 4; 100; nan]) = 2 /\
     box_lower_fence [1; 2; 3; 4; 100; nan] = -1 /\
     box_upper_fence [1; 2; 3; 4; 100; nan] = 7 /\
     box_outliers (box_plot_region_on [1; 2; 3; 4; 100; nan]) = 1%nat).
Proof.
  split.
  - intros sales_data Hnan Hv.
    destruct (@show_metrics_tukey float float_arith sales_data Hv)
      as (m & Hm & _ & H1 & H3 & HI & HL & HU & Hout).
    assert (Hp : forall q : float, np_percentile sales_data q = nan).
    { intros q. unfold np_percentile, _quantile.
      change (@fisnan float float_arith) with PrimFloat.is_nan.
      now rewrite Hnan. }
    rewrite Hp in H1, H3.
    assert (EI : IQR m = nan) by (rewrite HI, H1, H3; reflexivity).
    assert (EL : lower_bound m = nan)
      by (rewrite HL, EI, H1; reflexivity).
    assert (EU : upper_bound m = nan)
      by (rewrite HU, EI, H3; reflexivity).
    exists m. repeat split; try assumption.
    destruct (outliers m) as [|v t] eqn:Eo; [reflexivity|exfalso].
    destruct (proj1 (Hout v) (or_introl eq_refl)) as [_ Hlt].
    rewrite EL, EU in Hlt.
    change (@fltb float float_arith) with PrimFloat.ltb in Hlt.
    destruct (float_order_cases v nan) as [_ L1 _ _ L2 _| | |];
      try discriminate.
    destruct Hlt; congruence.
  - eexists. split; [vm_compute; reflexivity|]. repeat split.
Qed.

End TukeySites.

(* ================================================================== *)
(** * C10: the spread insight of box_plot_chart *)
(* ================================================================== *)

Section BoxSpread.

Local Open Scope float_scope.

(** C10: in [box_plot_chart] the spread of a region is "wide" iff
    [iqr_sales > 1] and "narrow" otherwise, where [iqr_sales] is the
    interquartile range of the region's values; [show_metrics] thresholds
    the standard deviation instead, so the two disagree on [0,0,0,0,10]
    (wide by std, narrow by IQR) and on [0,0,1.5,1.5] (consistent by std,
    wide by IQR). *)
Theorem box_spread_uses_iqr :
  (forall col : list float,
     iqr_sales (box_plot_region_on col) =
       quantile (dropna col) 0.75 - quantile (dropna col) 0.25 /\
     (box_spread (box_plot_region_on col) = BoxWide <->
        (1.0 <? iqr_sales (box_plot_region_on col)) = true) /\
     (box_spread (box_plot_region_on col) = BoxNarrow <->
        (1.0 <? iqr_sales (box_plot_region_on col)) = false)) /\
  (exists m, show_metrics_on [0; 0; 0; 0; 10] = Ok m /\
             (1.0 <? std_sales m) = true /\
             spread_insight m = Wide /\
             iqr_sales (box_plot_region_on [0; 0; 0; 0; 10]) = 0 /\
             box_spread (box_plot_region_on [0; 0; 0; 0; 10]) = BoxNarrow) /\
  (exists m, show_metrics_on [0; 0; 1.5; 1.5] = Ok m /\
             (1.0 <? std_sales m) = false /\
             spread_insight m = Consistent /\
             iqr_sales (box_plot_region_on [0; 0; 1.5; 1.5]) = 1.5 /\
             box_spread (box_plot_region_on [0; 0; 1.5; 1.5]) = BoxWide).
Proof.
  split; [|split].
  - intros col. split; [reflexivity|].
    unfold box_plot_region_on; cbn [box_spread iqr_sales].
    rewrite box_spread_of_float.
    match goal with |- context [1 <? ?i] => destruct (1 <? i) end;
      split; split; congruence.
  - eexists. split; [vm_compute; reflexivity|]. repeat split.
  - eexists. split; [vm_compute; reflexivity|]. repeat split.
Qed.

End BoxSpread.

(* ================================================================== *)
(** * The other pages: facts in any arithmetic *)
(* ================================================================== *)

Section OtherPagesFacts.

Context {F : Type} {A : PyFloat F}.

Lemma Region_eqb_eq (a b : Region) : Region_eqb a b = true <-> a = b.
Proof. destruct a, b; simpl; split; congruence. Qed.

Lemma In_region_keys (region : Region) : In region region_keys.
Proof. destruct region; simpl; tauto. Qed.

Lemma unique_incl (l : list F) (y : F) : In y (unique l) -> In y l.
Proof.
  induction l as [|x t IH]; simpl; [tauto|].
  intros [->|H]; [now left|]. right. apply IH.
  apply filter_In in H. tauto.
Qed.

(** One block of a melted table, filtered on its tag. *)
Lemma filter_tagged (T R V : Type) (tag : T) (g : R -> V) (p : T -> bool)
  (rows : list R) :
  filter (fun point : T * V => p (fst point))
         (map (fun row => (tag, g row)) rows) =
  if p tag then map (fun row => (tag, g row)) rows else [].
Proof.
  induction rows as [|r t IH]; simpl; [now destruct (p tag)|].
  rewrite IH. now destruct (p tag).
Qed.

Lemma box_data_complete (data : list (SalesRecord F)) (region : Region)
  (row : SalesRecord F) :
  In row (box_data data) ->
  In row data /\ fisnan (region_mapping region row) = false.
Proof.
  unfold box_data. intros H. apply filter_In in H. destruct H as [Hin Hc].
  split; [exact Hin|].
  rewrite forallb_forall in Hc.
  specialize (Hc region (In_region_keys region)).
  now apply negb_true_iff in Hc.
Qed.

End OtherPagesFacts.

(* ------------------------------------------------------------------ *)
(** ** The order of the group labels *)

Lemma string_leb_iff (a b : string) :
  String.leb a b = true <-> a = b \/ OrderedTypeEx.String_as_OT.lt a b.
Proof.
  unfold String.leb.
  destruct (String.compare a b) eqn:E.
  - apply OrderedTypeEx.String_as_OT.cmp_eq in E. tauto.
  - apply OrderedTypeEx.String_as_OT.cmp_lt in E. tauto.
  - split; [discriminate|]. intros [->|H].
    + assert (E' : String.compare b b = Eq)
        by now apply OrderedTypeEx.String_as_OT.cmp_eq.
      congruence.
    + apply OrderedTypeEx.String_as_OT.cmp_lt in H.
      unfold OrderedTypeEx.String_as_OT.cmp in H. congruence.
Qed.

Lemma string_leb_trans (a b c : string) :
  String.leb a b = true -> String.leb b c = true -> String.leb a c = true.
Proof.
  rewrite !string_leb_iff.
  intros [->|Hab] [->|Hbc]; auto.
  right. eapply OrderedTypeEx.String_as_OT.lt_trans; eassumption.
Qed.

Lemma insert_key_perm (k : string) (l : list string) :
  Permutation (insert_key k l) (k :: l).
Proof.
  induction l as [|k' t IH]; simpl; [reflexivity|].
  destruct (String.leb k k'); [reflexivity|].
  rewrite IH. apply perm_swap.
Qed.

Lemma sort_keys_perm (l : list string) : Permutation (sort_keys l) l.
Proof.
  induction l as [|k t IH]; simpl; [reflexivity|].
  rewrite insert_key_perm. now constructor.
Qed.

Lemma insert_key_sorted (k : string) (l : list string) :
  StronglySorted (fun a b => String.leb a b = true) l ->
  StronglySorted (fun a b => String.leb a b = true) (insert_key k l).
Proof.
  induction 1 as [|k' t Ht IH Hk']; simpl.
  - constructor; constructor.
  - destruct (String.leb k k') eqn:E.
    + constructor; [now constructor|].
      constructor; [exact E|].
      rewrite Forall_forall in *. intros x Hx.
      eapply string_leb_trans; [exact E|now apply Hk'].
    + constructor; [exact IH|].
      rewrite Forall_forall in *. intros x Hx.
      apply (Permutation_in _ (insert_key_perm k t)) in Hx.
      destruct Hx as [<-|Hx]; [|now apply Hk'].
      destruct (String.leb_total k k') as [H|H]; congruence.
Qed.

Lemma sort_keys_sorted (l : list string) :
  StronglySorted (fun a b => String.leb a b = true) (sort_keys l).
Proof.
  induction l as [|k t IH]; simpl; [constructor|].
  now apply insert_key_sorted.
Qed.

Section GroupFacts.

Context {F : Type} {A : PyFloat F}.

Lemma group_keys_NoDup (key : SalesRecord F -> string)
  (data : list (SalesRecord F)) : NoDup (group_keys key data).
Proof.
  unfold group_keys.
  eapply Permutation_NoDup; [symmetry; apply sort_keys_perm|].
  apply NoDup_nodup.
Qed.

Lemma group_keys_In (key : SalesRecord F -> string)
  (data : list (SalesRecord F)) (k : string) :
  In k (group_keys key data) <-> exists row, In row data /\ key row = k.
Proof.
  unfold group_keys. split.
  - intros H. apply (Permutation_in _ (sort_keys_perm _)) in H.
    apply nodup_In, in_map_iff in H. destruct H as [row [E Hin]].
    now exists row.
  - intros [row [Hin E]].
    apply (Permutation_in _ (Permutation_sym (sort_keys_perm _))).
    apply nodup_In, in_map_iff. now exists row.
Qed.

Lemma groupby_sum_keys_eq (key : SalesRecord F -> string)
  (col : SalesRecord F -> F) (data : list (SalesRecord F)) :
  map fst (groupby_sum key col data) = group_keys key data.
Proof.
  unfold groupby_sum. rewrite map_map. simpl. apply map_id.
Qed.

Lemma group_keys_nonempty (key : SalesRecord F -> string)
  (data : list (SalesRecord F)) : data <> [] -> group_keys key data <> [].
Proof.
  destruct data as [|row t]; [congruence|]. intros _ E.
  assert (H : In (key row) (group_keys key (row :: t)))
    by (apply group_keys_In; exists row; split; [now left|reflexivity]).
  rewrite E in H. exact H.
Qed.

End GroupFacts.

(* ================================================================== *)
(** * scatter_chart: the two regions and the size of the table *)
(* ================================================================== *)

(** X1: the regions offered for the Y axis of [scatter_chart] are the four
    regions other than the one on the X axis, each once: the chart never
    correlates a region with itself. *)
Theorem remaining_regions_exclude_x :
  forall region_x : Region,
    length (remaining_regions region_x) = 4%nat /\
    NoDup (remaining_regions region_x) /\
    (forall region_y,
       In region_y (remaining_regions region_x) <-> region_y <> region_x).
Proof.
  intros region_x. split; [now destruct region_x|]. split.
  - destruct region_x; repeat constructor; simpl; intuition discriminate.
  - intros region_y.
    destruct region_x, region_y; simpl; intuition congruence.
Qed.

(** X2: in any arithmetic, on a table of fewer than two rows (the empty
    table included) the correlation of [scatter_chart] is not computed:
    [pearsonr] raises ValueError "x and y must have length at least 2.",
    whatever the two regions. *)
Theorem scatter_chart_needs_two_rows :
  forall (F : Type) (A : PyFloat F) (data : list (SalesRecord F))
         (region_x region_y : Region),
    (length data < 2)%nat ->
    scatter_chart data region_x region_y =
      Raise (ValueError "x and y must have length at least 2.").
Proof.
  intros F A data rx ry Hlen.
  unfold scatter_chart, pearsonr, column. rewrite !length_map.
  rewrite Nat.eqb_refl. simpl negb. cbv iota.
  destruct (Nat.ltb_spec (length data) 2) as [_|H]; [reflexivity|lia].
Qed.

Lemma scatter_chart_needs_two_rows_witness :
  scatter_chart [year_row 2000%float 1%float]
                NA_Sales_region EU_Sales_region =
    Raise (ValueError "x and y must have length at least 2.").
Proof.
  apply (@scatter_chart_needs_two_rows float float_arith).
  simpl. lia.
Defined.

(* ================================================================== *)
(** * show_metrics: the mode *)
(* ================================================================== *)

(** X3: in any arithmetic, on a column with a value, the mode printed by
    [show_metrics] is a non-missing value of the column, and no
    non-missing value occurs more often than it does. *)
Theorem mode_is_most_frequent :
  forall (F : Type) (A : PyFloat F) (sales_data : list F),
    dropna sales_data <> [] ->
    exists m,
      show_metrics_on sales_data = Ok m /\
      In (mode_sales m) (dropna sales_data) /\
      (forall y,
         In y (dropna sales_data) ->
         (count_eq y (dropna sales_data)
          <= count_eq (mode_sales m) (dropna sales_data))%nat).
Proof.
  intros F A sales_data Hv.
  destruct (show_metrics_on_Ok sales_data Hv) as [mv [Hmode Hm]].
  rewrite Hm. eexists. split; [reflexivity|].
  cbn [mode_sales].
  assert (Hin : In mv (mode sales_data))
    by (destruct (mode sales_data); [discriminate|];
        injection Hmode as ->; now left).
  unfold mode in Hin. apply sort_In, unique_incl, filter_In in Hin.
  destruct Hin as [Hin Htop]. apply Nat.eqb_eq in Htop.
  split; [exact Hin|].
  intros y Hy. rewrite Htop.
  assert (Hle : Forall (fun k => (k <= list_max
            (map (fun y0 => count_eq y0 (dropna sales_data))
                 (dropna sales_data)))%nat)
            (map (fun y0 => count_eq y0 (dropna sales_data))
                 (dropna sales_data)))
    by now apply list_max_le.
  rewrite Forall_forall in Hle. apply Hle, in_map_iff. now exists y.
Qed.

Lemma mode_is_most_frequent_witness :
  exists m,
    show_metrics_on [2%float; 1%float; 2%float; nan] = Ok m /\
    In (mode_sales m) (dropna [2%float; 1%float; 2%float; nan]) /\
    (forall y,
       In y (dropna [2%float; 1%float; 2%float; nan]) ->
       (count_eq y (dropna [2%float; 1%float; 2%float; nan])
        <= count_eq (mode_sales m)
                    (dropna [2%float; 1%float; 2%float; nan]))%nat).
Proof.
  apply (@mode_is_most_frequent float float_arith).
  vm_compute. discriminate.
Defined.

(* ================================================================== *)
(** * box_plot_chart: the plotted points and the printed insights *)
(* ================================================================== *)

(** X5: in any arithmetic, the box drawn for a region holds the region's
    values over the rows that have a value in all five sales columns, if
    the region is selected, and nothing otherwise.  Each plotted value is
    among the values the printed insights are computed from (the region's
    own non-missing cells), and the two coincide when no row of the table
    lacks a sales figure; a row that lacks one in another column only is
    plotted in no box but still counted by the insights of the region. *)
Theorem box_plot_points_of_region :
  forall (F : Type) (A : PyFloat F) (data : list (SalesRecord F))
         (selected_regions : list Region) (region : Region),
    box_of region (box_plot_points data selected_regions) =
      (if existsb (Region_eqb region) selected_regions
       then column (region_mapping region) (box_data data)
       else []) /\
    (forall v,
       In v (column (region_mapping region) (box_data data)) ->
       In v (dropna (column (region_mapping region) data))) /\
    (box_data data = data ->
     column (region_mapping region) (box_data data) =
     dropna (column (region_mapping region) data)) /\
    (forall (row : SalesRecord F) (other : Region),
       In row data ->
       fisnan (region_mapping other row) = true ->
       fisnan (region_mapping region row) = false ->
       ~ In row (box_data data) /\
       In (region_mapping region row)
          (dropna (column (region_mapping region) data))).
Proof.
  intros F A data selected_regions region. split; [|split; [|split]].
  - unfold box_of, box_plot_points, melted_data, region_keys.
    cbn [flat_map]. rewrite app_nil_r.
    rewrite !filter_app.
    rewrite !(filter_tagged _ _
                (fun t => existsb (Region_eqb t) selected_regions)).
    unfold column.
    destruct region;
      destruct (existsb (Region_eqb Global_Sales_region) selected_regions);
      destruct (existsb (Region_eqb NA_Sales_region) selected_regions);
      destruct (existsb (Region_eqb EU_Sales_region) selected_regions);
      destruct (existsb (Region_eqb JP_Sales_region) selected_regions);
      destruct (existsb (Region_eqb Other_Sales_region) selected_regions);
      rewrite ?filter_app;
      rewrite ?(filter_tagged _ _ (fun t => Region_eqb t _));
      cbn [Region_eqb filter app]; rewrite ?app_nil_r;
      rewrite ?map_map; reflexivity.
  - intros v Hv. unfold column in *. apply in_map_iff in Hv.
    destruct Hv as [row [<- Hrow]].
    destruct (box_data_complete data region row Hrow) as [Hin Hc].
    unfold dropna. apply filter_In. split.
    + apply in_map_iff. now exists row.
    + now rewrite Hc.
  - intros Hall. rewrite Hall. symmetry. apply dropna_clean.
    apply Forall_forall. intros v Hv. unfold column in Hv.
    apply in_map_iff in Hv. destruct Hv as [row [<- Hrow]].
    rewrite <- Hall in Hrow.
    now destruct (box_data_complete data region row Hrow).
  - intros row other Hin Hother Hregion. split.
    + intros Hbox.
      destruct (box_data_complete data other row Hbox) as [_ Hc].
      congruence.
    + unfold dropna. apply filter_In. split.
      * unfold column. apply in_map_iff. now exists row.
      * now rewrite Hregion.
Qed.

(* ================================================================== *)
(** * groupby: the labels of the groups *)
(* ================================================================== *)

(** X6: in any arithmetic, the table of totals that [pie_chart] (per
    platform) and [regional_sales_by_genre_chart] (per genre) build with
    [groupby(...).sum()] has one row for each label that occurs in the
    data and no other, without repetition, in ascending order of the
    labels. *)
Theorem groupby_sum_labels :
  forall (F : Type) (A : PyFloat F) (key : SalesRecord F -> string)
         (col : SalesRecord F -> F) (data : list (SalesRecord F)),
    NoDup (map fst (groupby_sum key col data)) /\
    StronglySorted (fun a b => String.leb a b = true)
                   (map fst (groupby_sum key col data)) /\
    (forall k,
       In k (map fst (groupby_sum key col data)) <->
       exists row, In row data /\ key row = k).
Proof.
  intros F A key col data. rewrite groupby_sum_keys_eq.
  split; [apply group_keys_NoDup|]. split.
  - apply sort_keys_sorted.
  - apply group_keys_In.
Qed.

(** X7: in any arithmetic, the search of [pie_chart] for the leading
    platform raises the ValueError of [idxmax], "attempt to get argmax of
    an empty sequence", on the empty table, for every region, and on no
    other table. *)
Theorem pie_chart_empty_table :
  forall (F : Type) (A : PyFloat F) (data : list (SalesRecord F))
         (region_selection : Region),
    pie_chart data region_selection =
      Raise (ValueError "attempt to get argmax of an empty sequence") <->
    data = [].
Proof.
  intros F A data region_selection. split; [|now intros ->].
  intros H. destruct data as [|row t]; [reflexivity|exfalso].
  unfold pie_chart, pie_chart_on in H.
  set (region_sales :=
         groupby_sum (@Platform F) (region_mapping region_selection)
                     (row :: t)) in H.
  assert (Hne : map snd region_sales <> []).
  { intros E. apply (f_equal (@length _)) in E.
    unfold region_sales, groupby_sum in E. rewrite !length_map in E.
    apply length_zero_iff_nil in E.
    revert E. apply group_keys_nonempty. discriminate. }
  unfold idxmax, idxmin in H.
  destruct (map snd region_sales) as [|v vs]; [congruence|].
  cbn [bind] in H. unfold loc in H.
  destruct (option_map fst (first_best (fun b v0 => fltb b v0) (v :: vs) 0 None))
    as [i|]; [|discriminate H].
  destruct (nth_error region_sales i); [|discriminate H].
  cbn [bind] in H.
  destruct (option_map fst (first_best (fun b v0 => fltb v0 b) (v :: vs) 0 None))
    as [i'|]; [|discriminate H].
  destruct (nth_error region_sales i'); discriminate H.
Qed.

(* ================================================================== *)
(** * Binary64: NaN through the arithmetic *)
(* ================================================================== *)

Section FloatNaN.

Local Open Scope float_scope.

Lemma nan_unique (x : float) : PrimFloat.is_nan x = true -> x = nan.
Proof.
  intros H. apply is_nan_spec in H. apply Prim2SF_inj. now rewrite H.
Qed.

Lemma add_nan_l (x : float) : nan + x = nan.
Proof.
  apply Prim2SF_inj. rewrite FloatAxioms.add_spec. reflexivity.
Qed.

Lemma add_nan_r (x : float) : x + nan = nan.
Proof.
  apply Prim2SF_inj. rewrite FloatAxioms.add_spec.
  destruct (Prim2SF x) as [[]|[]| |[] m e]; reflexivity.
Qed.

Lemma sub_nan_l (x : float) : nan - x = nan.
Proof.
  apply Prim2SF_inj. rewrite FloatAxioms.sub_spec. reflexivity.
Qed.

Lemma sub_nan_r (x : float) : x - nan = nan.
Proof.
  apply Prim2SF_inj. rewrite FloatAxioms.sub_spec.
  destruct (Prim2SF x) as [[]|[]| |[] m e]; reflexivity.
Qed.

Lemma mul_nan_l (x : float) : nan * x = nan.
Proof.
  apply Prim2SF_inj. rewrite FloatAxioms.mul_spec. reflexivity.
Qed.

Lemma mul_nan_r (x : float) : x * nan = nan.
Proof.
  apply Prim2SF_inj. rewrite FloatAxioms.mul_spec.
  destruct (Prim2SF x) as [[]|[]| |[] m e]; reflexivity.
Qed.

Lemma div_nan_l (x : float) : nan / x = nan.
Proof.
  apply Prim2SF_inj. rewrite FloatAxioms.div_spec. reflexivity.
Qed.

(** [isfinite] is [np.isfinite] on binary64. *)
Lemma isfinite_float (v : float) : isfinite v = PrimFloat.is_finite v.
Proof.
  unfold isfinite.
  change (feqb (fsub v v) (of_int 0)) with (v - v =? 0).
  destruct (PrimFloat.is_finite v) eqn:E.
  - now rewrite (float_sub_diag E).
  - assert (En : v - v = nan).
    { apply Prim2SF_inj. rewrite FloatAxioms.sub_spec.
      unfold PrimFloat.is_finite in E.
      apply negb_false_iff, orb_true_iff in E. destruct E as [E|E].
      - apply is_nan_spec in E. now rewrite E.
      - unfold PrimFloat.is_infinity in E.
        rewrite FloatAxioms.eqb_spec, FloatAxioms.abs_spec in E.
        destruct (Prim2SF v) as [[]|[]| |[] m e]; try discriminate E;
          reflexivity. }
    now rewrite En.
Qed.

Lemma float_eqb_refl (x : float) :
  PrimFloat.is_nan x = false -> (x =? x) = true.
Proof.
  intros Hx. destruct (float_order_cases x x) as [[H|H]| | |]; congruence.
Qed.

(** A sum that meets NaN is NaN. *)
Lemma fold_add_nan (l : list float) : fold_left PrimFloat.add l nan = nan.
Proof.
  induction l as [|x t IH]; simpl; [reflexivity|].
  now rewrite add_nan_l.
Qed.

Lemma fold_add_with_nan (l : list float) :
  existsb PrimFloat.is_nan l = true ->
  forall acc, fold_left PrimFloat.add l acc = nan.
Proof.
  induction l as [|x t IH]; simpl; [discriminate|].
  intros H acc. destruct (PrimFloat.is_nan x) eqn:E.
  - rewrite (nan_unique x E), add_nan_r. apply fold_add_nan.
  - apply IH. exact H.
Qed.

Lemma fsum_with_nan (l : list float) :
  existsb PrimFloat.is_nan l = true -> fsum l = nan.
Proof. intros H. unfold fsum. now apply fold_add_with_nan. Qed.

(** The centred column, in [pearsonr], has no finite entry as soon as the
    column has a missing cell. *)
Lemma centred_with_nan (l : list float) :
  existsb PrimFloat.is_nan l = true ->
  forallb isfinite (map (fun v => fsub v (fdiv (fsum l) (flen l))) l) = false.
Proof.
  intros H. rewrite (fsum_with_nan l H).
  change (fdiv nan (flen l)) with (nan / flen l). rewrite div_nan_l.
  rewrite (map_ext _ (fun _ => nan)).
  - destruct l; [discriminate|reflexivity].
  - intros v. change (fsub v nan) with (v - nan). apply sub_nan_r.
Qed.

(** [pearsonr] on two series of the same length, at least 2, one of which
    has a missing cell. *)
Lemma pearsonr_with_nan (x y : list float) :
  length x = length y -> (2 <= length x)%nat ->
  existsb PrimFloat.is_nan x = true \/ existsb PrimFloat.is_nan y = true ->
  pearsonr x y =
    if forallb (fun v => feqb v (nth 0 x fnan)) x
       || forallb (fun v => feqb v (nth 0 y fnan)) y
       || (length x =? 2)%nat
    then Ok nan
    else Raise (ValueError "array must not contain infs or NaNs").
Proof.
  intros Hlen Hn Hnan. unfold pearsonr.
  rewrite <- Hlen, Nat.eqb_refl. cbn [negb].
  destruct (Nat.ltb_spec (length x) 2) as [H|_]; [lia|].
  destruct (forallb (fun v => feqb v (nth 0 x fnan)) x
            || forallb (fun v => feqb v (nth 0 y fnan)) y); [reflexivity|].
  cbn [orb].
  destruct (Nat.eqb_spec (length x) 2) as [E2|N2].
  - destruct x as [|a [|b [|c x']]]; try discriminate E2.
    destruct y as [|c [|d [|e y']]]; try discriminate Hlen.
    cbn [nth]. f_equal.
    change (sign (b - a) * sign (d - c) = nan).
    destruct Hnan as [H|H]; simpl in H.
    + assert (E : b - a = nan).
      { destruct (PrimFloat.is_nan a) eqn:Ea.
        - now rewrite (nan_unique a Ea), sub_nan_r.
        - destruct (PrimFloat.is_nan b) eqn:Eb; [|discriminate].
          now rewrite (nan_unique b Eb), sub_nan_l. }
      rewrite E. change (sign nan) with nan. apply mul_nan_l.
    + assert (E : d - c = nan).
      { destruct (PrimFloat.is_nan c) eqn:Ec.
        - now rewrite (nan_unique c Ec), sub_nan_r.
        - destruct (PrimFloat.is_nan d) eqn:Ed; [|discriminate].
          now rewrite (nan_unique d Ed), sub_nan_l. }
      rewrite E. change (sign nan) with nan. apply mul_nan_r.
  - destruct Hnan as [H|H]; rewrite (centred_with_nan _ H); cbn [negb orb];
      [reflexivity|now rewrite orb_true_r].
Qed.

(** The clamp at the end of [pearsonr]. *)
Lemma clamp_within (r : float) :
  (1 <? py_max (py_min r (of_int 1)) (of_int (-1))) = false /\
  (py_max (py_min r (of_int 1)) (of_int (-1)) <? -1) = false.
Proof.
  unfold py_max, py_min. change (of_int 1) with 1. change (of_int (-1)) with (-1).
  change (@fltb float float_arith) with PrimFloat.ltb.
  destruct (1 <? r) eqn:E1.
  - split; reflexivity.
  - destruct (r <? -1) eqn:E2.
    + split; reflexivity.
    + split; assumption.
Qed.

Lemma sign_values (d : float) :
  sign d = nan \/ sign d = 1 \/ sign d = -1 \/ sign d = 0.
Proof.
  unfold sign. destruct (fisnan d); [now left|].
  destruct (fltb (of_int 0) d); [right; now left|].
  destruct (fltb d (of_int 0)); [right; right; now left|].
  right; right; now right.
Qed.

End FloatNaN.

(* ================================================================== *)
(** * scatter_chart in binary64 *)
(* ================================================================== *)

Section ScatterFloat.

Local Open Scope float_scope.



(** X9: in binary64, a coefficient returned by [pearsonr] is never above
    1 and never below -1 (it is NaN or lies between them), so the
    "strong" branch of [scatter_chart] means 0.75 < r <= 1. *)
Theorem pearsonr_within_bounds :
  forall (x y : list float) (r : float),
    pearsonr x y = Ok r ->
    (1 <? r) = false /\ (r <? -1) = false.
Proof.
  intros x y r. unfold pearsonr.
  destruct (negb (length x =? length y)%nat); [discriminate|].
  destruct (length x <? 2)%nat; [discriminate|].
  destruct (forallb (fun v => feqb v (nth 0 x fnan)) x
            || forallb (fun v => feqb v (nth 0 y fnan)) y).
  - intros [= <-]. split; reflexivity.
  - destruct (length x =? 2)%nat; [|destruct (_ || _); [discriminate|]].
    + intros [= <-].
      match goal with
      | |- context [sign ?a * sign ?b] =>
          destruct (sign_values a) as [-> | [-> | [-> | ->]]];
          destruct (sign_values b) as [-> | [-> | [-> | ->]]]
      end; split; reflexivity.
    + intros [= <-]. apply clamp_within.
Qed.

Lemma pearsonr_within_bounds_witness :
  (1 <? 0.98198050606196574) = false /\
  (0.98198050606196574 <? -1) = false.
Proof.
  apply (@pearsonr_within_bounds [1; 2; 3] [1; 2; 4]).
  vm_compute. reflexivity.
Defined.

(** X22: in binary64, on a table of at least two rows in which one of
    the two chosen columns holds the same value in every row,
    [scatter_chart] gets NaN from [pearsonr] (the correlation of a
    constant is undefined) and prints "little to no correlation". *)
Theorem scatter_chart_constant_column :
  forall (data : list (SalesRecord float)) (region_x region_y : Region)
         (c : float),
    (2 <= length data)%nat ->
    PrimFloat.is_nan c = false ->
    (forall row, In row data -> region_mapping region_x row = c) \/
    (forall row, In row data -> region_mapping region_y row = c) ->
    scatter_chart data region_x region_y = Ok (nan, Negligible).
Proof.
  intros data rx ry c Hn Hc Hconst.
  assert (Hall : forall region,
            (forall row, In row data -> region_mapping region row = c) ->
            forallb (fun v => feqb v (nth 0 (column (region_mapping region)
                                                     data) fnan))
                    (column (region_mapping region) data) = true).
  { intros region H. apply forallb_forall. intros v Hv.
    unfold column in *. apply in_map_iff in Hv.
    destruct Hv as [row [<- Hrow]].
    destruct data as [|row0 t]; [destruct Hrow|].
    cbn [map nth]. rewrite (H row Hrow), (H row0 (or_introl eq_refl)).
    now apply float_eqb_refl. }
  unfold scatter_chart, pearsonr.
  assert (Hlen : length (column (region_mapping rx) data) =
                 length (column (region_mapping ry) data))
    by (unfold column; now rewrite !length_map).
  rewrite <- Hlen, Nat.eqb_refl. cbn [negb].
  assert (Hl : length (column (region_mapping rx) data) = length data)
    by (unfold column; now rewrite length_map).
  rewrite Hl.
  destruct (Nat.ltb_spec (length data) 2) as [H|_]; [lia|].
  destruct Hconst as [H|H]; rewrite (Hall _ H).
  - reflexivity.
  - rewrite orb_true_r. reflexivity.
Qed.

Lemma scatter_chart_constant_column_witness :
  scatter_chart [year_row 2000 1; year_row 2001 1; year_row 2002 1]
                NA_Sales_region EU_Sales_region = Ok (nan, Negligible).
Proof.
  apply (@scatter_chart_constant_column _ NA_Sales_region EU_Sales_region 1).
  - simpl. lia.
  - reflexivity.
  - left. intros row [<-|[<-|[<-|[]]]]; reflexivity.
Defined.

End ScatterFloat.

(* ================================================================== *)
(** * histogram_chart, box_plot_chart and show_metrics in binary64 *)
(* ================================================================== *)

Section PagesFloat.

Local Open Scope float_scope.

(** X10: in binary64, the first insight of [histogram_chart] is
    "positively skewed" iff the mean is above the median, "negatively
    skewed" iff it is below, and "symmetrical" iff the two are equal or
    one of them is NaN. *)
Theorem mean_median_insight_thresholds :
  forall mean median : float,
    (mean_median_insight mean median = MeanAbove <->
       (median <? mean) = true) /\
    (mean_median_insight mean median = MeanBelow <->
       (mean <? median) = true) /\
    (mean_median_insight mean median = MeanEqual <->
       (mean =? median) = true \/
       PrimFloat.is_nan mean = true \/ PrimFloat.is_nan median = true).
Proof.
  intros m md. unfold mean_median_insight.
  change (@fltb float float_arith) with PrimFloat.ltb.
  destruct (float_order_cases m md)
    as [Hn L1 _ E L2 _|N1 N2 L1 _ E L2 _|N1 N2 L1 _ E L2 _|N1 N2 L1 _ E L2 _];
    rewrite L1, L2, E; repeat split; intros H;
    try discriminate; try reflexivity; try tauto;
    try (destruct H as [H|[H|H]]; congruence).
Qed.

(** X11: in binary64, the skewness insight of [show_metrics] and of
    [histogram_chart] is "positively skewed" iff the skewness is above 0,
    "negatively skewed" iff it is below 0, and "symmetrical" / "no skew"
    iff it is 0 or NaN. *)
Theorem skew_insight_thresholds :
  forall skewness : float,
    (skew_insight skewness = PositiveSkew <-> (0 <? skewness) = true) /\
    (skew_insight skewness = NegativeSkew <-> (skewness <? 0) = true) /\
    (skew_insight skewness = NoSkew <->
       (skewness =? 0) = true \/ PrimFloat.is_nan skewness = true).
Proof.
  intros s. unfold skew_insight.
  change (@fltb float float_arith) with PrimFloat.ltb.
  change (@of_int float float_arith 0) with 0.
  assert (N0 : PrimFloat.is_nan 0 = false) by reflexivity.
  destruct (float_order_cases s 0)
    as [Hn L1 _ E L2 _|N1 N2 L1 _ E L2 _|N1 N2 L1 _ E L2 _|N1 N2 L1 _ E L2 _];
    rewrite L1, L2, E; repeat split; intros H;
    try discriminate; try reflexivity; try tauto;
    try (destruct Hn; congruence);
    try (destruct H as [H|H]; congruence).
Qed.

(** X12: in binary64, on a column without a value (empty, or with every
    cell missing) the mean, median and standard deviation that
    [histogram_chart] computes are NaN, the skewness is that of the empty
    series, and its insights call the distribution "symmetrical" and the
    spread "low". *)
Theorem histogram_chart_without_values :
  forall (skew : list float -> float) (col : list float),
    dropna col = [] ->
    hist_mean_sales (histogram_chart_on skew col) = nan /\
    hist_median_sales (histogram_chart_on skew col) = nan /\
    hist_std_sales (histogram_chart_on skew col) = nan /\
    hist_skewness (histogram_chart_on skew col) = skew [] /\
    hist_mean_median (histogram_chart_on skew col) = MeanEqual /\
    hist_spread (histogram_chart_on skew col) = Low.
Proof.
  intros skew col Hv. unfold histogram_chart_on. rewrite Hv.
  repeat split.
Qed.

Lemma histogram_chart_without_values_witness :
  hist_mean_sales (histogram_chart_on (fun _ => nan) [nan; nan]) = nan /\
  hist_median_sales (histogram_chart_on (fun _ => nan) [nan; nan]) = nan /\
  hist_std_sales (histogram_chart_on (fun _ => nan) [nan; nan]) = nan /\
  hist_skewness (histogram_chart_on (fun _ => nan) [nan; nan]) = nan /\
  hist_mean_median (histogram_chart_on (fun _ => nan) [nan; nan])
    = MeanEqual /\
  hist_spread (histogram_chart_on (fun _ => nan) [nan; nan]) = Low.
Proof.
  apply (@histogram_chart_without_values (fun _ => nan) [nan; nan]).
  reflexivity.
Defined.

(** X13: in binary64, for a region whose column has no value the loop
    of [box_plot_chart] computes NaN for the median, the IQR, the minimum
    and the maximum, counts no outlier and calls the spread "relatively
    narrow" (where [show_metrics] ends with IndexError). *)
Theorem box_plot_without_values :
  forall col : list float,
    dropna col = [] ->
    box_plot_region_on col = mkBox nan nan nan nan 0 BoxNarrow.
Proof.
  intros col Hv. unfold box_plot_region_on. rewrite Hv. reflexivity.
Qed.

Lemma box_plot_without_values_witness :
  box_plot_region_on [nan; nan; nan] = mkBox nan nan nan nan 0 BoxNarrow.
Proof.
  apply (@box_plot_without_values [nan; nan; nan]). reflexivity.
Defined.

(** X14: in binary64, on a column with exactly one value [show_metrics]
    returns; median, mode, minimum and maximum are that value, variance
    and standard deviation (denominator n - 1 = 0) are NaN, and the
    spread is called "relatively consistent". *)
Theorem show_metrics_single_value :
  forall (sales_data : list float) (a : float),
    dropna sales_data = [a] ->
    exists m,
      show_metrics_on sales_data = Ok m /\
      median_sales m = a /\
      mode_sales m = a /\
      min_sales m = a /\
      max_sales m = a /\
      var_sales m = nan /\
      std_sales m = nan /\
      spread_insight m = Consistent.
Proof.
  intros sales_data a Hv.
  assert (Ha : PrimFloat.is_nan a = false).
  { assert (Hin : In a (dropna sales_data)) by (rewrite Hv; now left).
    apply filter_In in Hin. destruct Hin as [_ Hin].
    now apply negb_true_iff in Hin. }
  assert (Hmode : mode sales_data = [a]).
  { unfold mode. rewrite Hv. unfold count_eq. cbn [filter map].
    change (feqb a a) with (a =? a). rewrite (float_eqb_refl a Ha).
    reflexivity. }
  assert (Hvar : var sales_data = nan)
    by (unfold var; rewrite Hv; reflexivity).
  unfold show_metrics_on. rewrite Hmode. cbn [first_value bind].
  eexists. split; [reflexivity|].
  cbn [median_sales mode_sales min_sales max_sales var_sales std_sales
       spread_insight].
  unfold std. rewrite Hvar.
  unfold median, series_min, series_max. rewrite Hv.
  repeat split.
Qed.

Lemma show_metrics_single_value_witness :
  exists m,
    show_metrics_on [nan; 7; nan] = Ok m /\
    median_sales m = 7 /\
    mode_sales m = 7 /\
    min_sales m = 7 /\
    max_sales m = 7 /\
    var_sales m = nan /\
    std_sales m = nan /\
    spread_insight m = Consistent.
Proof.
  apply (@show_metrics_single_value [nan; 7; nan] 7). reflexivity.
Defined.

End PagesFloat.

(* ================================================================== *)
(** * pie_chart in binary64: the leading and the lowest platform *)
(* ================================================================== *)

Section FirstBest.

Local Open Scope float_scope.

Variable R : float -> float -> Prop.
Variable better : float -> float -> bool.

Hypothesis better_iff : forall b v : float, better b v = true <-> R b v.
Hypothesis R_irrefl : forall x, ~ R x x.
Hypothesis R_trans : forall x y z, R x y -> R y z -> R x z.
Hypothesis R_split :
  forall x y z, PrimFloat.is_nan y = false -> R x z -> R x y \/ R y z.

Lemma first_best_acc (t : list float) :
  Forall (fun v => PrimFloat.is_nan v = false) t ->
  forall (i j : nat) (b : float),
    PrimFloat.is_nan b = false ->
    exists j' b',
      first_best better t i (Some (j, b)) = Some (j', b') /\
      ~ R b' b /\
      (forall q, In q t -> ~ R b' q) /\
      ((j' = j /\ b' = b) \/
       (exists k, j' = (i + k)%nat /\ nth_error t k = Some b' /\ R b b' /\
                  forall k' q, (k' < k)%nat -> nth_error t k' = Some q ->
                               R q b')).
Proof.
  induction 1 as [|q t Hq Ht IH]; intros i j b Hb.
  - exists j, b. split; [reflexivity|]. split; [apply R_irrefl|].
    split; [intros q []|]. now left.
  - cbn [first_best]. change (fisnan q) with (PrimFloat.is_nan q).
    rewrite Hq.
    destruct (better b q) eqn:E.
    + apply better_iff in E.
      destruct (IH (S i) i q Hq) as (j' & b' & Ef & Hb' & Hall & Hpos).
      exists j', b'. split; [exact Ef|]. split; [|split].
      * intros H. apply Hb'. apply R_trans with b; assumption.
      * intros x [<-|Hx]; [exact Hb'|now apply Hall].
      * right. destruct Hpos as [[-> ->]|(k & -> & Hk & Hqb & Hbefore)].
        -- exists 0%nat. repeat split; [lia|exact E|]. intros k' x Hk'. lia.
        -- exists (S k).
           repeat split; [lia|exact Hk|apply R_trans with q; assumption|].
           intros [|k'] x Hk' Hx; simpl in Hx.
           ++ now injection Hx as <-.
           ++ apply (Hbefore k'); [lia|exact Hx].
    + assert (NE : ~ R b q)
        by (intros H; apply better_iff in H; congruence).
      destruct (IH (S i) j b Hb) as (j' & b' & Ef & Hb' & Hall & Hpos).
      exists j', b'. split; [exact Ef|]. split; [exact Hb'|]. split.
      * intros x [<-|Hx]; [|now apply Hall].
        intros H. destruct (@R_split b' b q Hb H) as [H1|H1]; tauto.
      * destruct Hpos as [[-> ->]|(k & -> & Hk & Hbb & Hbefore)];
          [now left|right].
        exists (S k). repeat split; [lia|exact Hk|exact Hbb|].
        intros [|k'] x Hk' Hx; simpl in Hx.
        -- injection Hx as <-.
           destruct (@R_split b q b' Hq Hbb) as [H1|H1]; tauto.
        -- apply (Hbefore k'); [lia|exact Hx].
Qed.

(** On a series of floats without NaN, not empty, [first_best] finds an
    entry that none beats, and every entry before it is beaten by it. *)
Lemma first_best_spec (ts : list float) :
  ts <> [] ->
  Forall (fun v => PrimFloat.is_nan v = false) ts ->
  exists j b,
    first_best better ts 0 None = Some (j, b) /\
    nth_error ts j = Some b /\
    (forall q, In q ts -> ~ R b q) /\
    (forall i q, (i < j)%nat -> nth_error ts i = Some q -> R q b).
Proof.
  destruct ts as [|t0 tt]; [congruence|intros _ Hts].
  inversion Hts as [|? ? H0 Htt]; subst.
  cbn [first_best]. change (fisnan t0) with (PrimFloat.is_nan t0).
  rewrite H0.
  destruct (@first_best_acc tt Htt 1 0 t0 H0)
    as (j & b & Ef & Hb & Hall & Hpos).
  exists j, b. split; [exact Ef|].
  destruct Hpos as [[-> ->]|(k & -> & Hk & Hbb & Hbefore)].
  - split; [reflexivity|]. split.
    + intros q [<-|Hq]; [exact Hb|now apply Hall].
    + intros i q Hi. lia.
  - split; [exact Hk|]. split.
    + intros q [<-|Hq]; [exact Hb|now apply Hall].
    + intros [|i] q Hi Hq; simpl in Hq.
      * now injection Hq as <-.
      * apply (Hbefore i); [lia|exact Hq].
Qed.

End FirstBest.

Section PieFloat.

Local Open Scope float_scope.

(** X17: in binary64, in every non-empty table of totals none of which is
    NaN, [pie_chart] finds a leading and a lowest platform, both rows of
    the table; every total lies between the lowest and the leading one;
    and every row above the reported one in the table has a total
    strictly on the other side, so among platforms tied at an extreme
    the first row of the table is reported (the table of [pie_chart] is
    in the order of the platform names).  This holds of any table,
    however its totals were added up. *)
Theorem pie_chart_top_and_lowest :
  (forall (data : list (SalesRecord float)) (region_selection : Region),
     pie_chart data region_selection =
     pie_chart_on (groupby_sum (@Platform float)
                               (region_mapping region_selection) data)) /\
  (forall region_sales : list (string * float),
     region_sales <> [] ->
     Forall (fun row => PrimFloat.is_nan (snd row) = false) region_sales ->
     exists i j top_platform lowest_platform,
       pie_chart_on region_sales = Ok (top_platform, lowest_platform) /\
       nth_error region_sales i = Some top_platform /\
       nth_error region_sales j = Some lowest_platform /\
       (forall row,
          In row region_sales ->
          (snd lowest_platform <=? snd row) = true /\
          (snd row <=? snd top_platform) = true) /\
       (forall k row,
          (k < i)%nat -> nth_error region_sales k = Some row ->
          (snd row <? snd top_platform) = true) /\
       (forall k row,
          (k < j)%nat -> nth_error region_sales k = Some row ->
          (snd lowest_platform <? snd row) = true)).
Proof.
  split; [reflexivity|].
  intros region_sales Hne Hclean.
  set (ts := map snd region_sales).
  assert (Hts : ts <> [])
    by (unfold ts; destruct region_sales; [congruence|discriminate]).
  assert (Hnan : Forall (fun v => PrimFloat.is_nan v = false) ts).
  { unfold ts. apply Forall_forall. intros v Hv.
    apply in_map_iff in Hv. destruct Hv as [row [<- Hrow]].
    rewrite Forall_forall in Hclean. now apply Hclean. }
  assert (Hin : forall q, In q ts -> PrimFloat.is_nan q = false)
    by (now apply Forall_forall).
  destruct (@first_best_spec (fun b v => (b <? v) = true)
              (fun b v => fltb b v)) with (ts := ts)
    as (i & b & Ef & Hnth & Hall & Hbefore); try assumption.
  { intros x y. reflexivity. }
  { intros x H. destruct (float_order_cases x x); congruence. }
  { intros x y z. apply float_lt_trans. }
  { intros x y z. apply float_lt_split. }
  destruct (@first_best_spec (fun b v => (v <? b) = true)
              (fun b v => fltb v b)) with (ts := ts)
    as (j & b' & Ef' & Hnth' & Hall' & Hbefore'); try assumption.
  { intros x y. reflexivity. }
  { intros x H. destruct (float_order_cases x x); congruence. }
  { intros x y z H1 H2. now apply float_lt_trans with y. }
  { intros x y z Hy H. destruct (@float_lt_split z y x Hy H); tauto. }
  unfold ts in Hnth, Hnth'. rewrite nth_error_map in Hnth, Hnth'.
  destruct (nth_error region_sales i) as [top|] eqn:Ei; [|discriminate].
  destruct (nth_error region_sales j) as [low|] eqn:Ej; [|discriminate].
  injection Hnth as <-. injection Hnth' as <-.
  exists i, j, top, low.
  split; [|split; [exact Ei|split; [exact Ej|split; [|split]]]].
  - unfold pie_chart_on, idxmax, idxmin. fold ts.
    destruct ts as [|v vs] eqn:Ets; [congruence|].
    rewrite Ef, Ef'. cbn [option_map fst bind loc].
    rewrite Ei. cbn [bind]. now rewrite Ej.
  - intros row Hrow.
    assert (Hq : In (snd row) ts) by (unfold ts; now apply in_map).
    assert (Htop : In (snd top) ts)
      by (unfold ts; apply in_map; eapply nth_error_In; exact Ei).
    assert (Hlow : In (snd low) ts)
      by (unfold ts; apply in_map; eapply nth_error_In; exact Ej).
    split.
    + apply float_not_lt_le; [now apply Hin|now apply Hin|].
      specialize (Hall' _ Hq). now destruct (snd row <? snd low).
    + apply float_not_lt_le; [now apply Hin|now apply Hin|].
      specialize (Hall _ Hq). now destruct (snd top <? snd row).
  - intros k row Hk Hrow. apply (Hbefore k); [exact Hk|].
    unfold ts. now rewrite nth_error_map, Hrow.
  - intros k row Hk Hrow. apply (Hbefore' k); [exact Hk|].
    unfold ts. now rewrite nth_error_map, Hrow.
Qed.

Lemma pie_chart_top_and_lowest_witness :
  exists i j top_platform lowest_platform,
    pie_chart_on [("GB"%string, 23.2); ("NES"%string, 29.08);
       ("Wii"%string, 57.34);
                  ("X360"%string, 57.34)]
      = Ok (top_platform, lowest_platform) /\
    nth_error [("GB"%string, 23.2); ("NES"%string, 29.08);
       ("Wii"%string, 57.34);
               ("X360"%string, 57.34)] i = Some top_platform /\
    nth_error [("GB"%string, 23.2); ("NES"%string, 29.08);
       ("Wii"%string, 57.34);
               ("X360"%string, 57.34)] j = Some lowest_platform /\
    (forall row,
       In row [("GB"%string, 23.2); ("NES"%string, 29.08);
       ("Wii"%string, 57.34);
               ("X360"%string, 57.34)] ->
       (snd lowest_platform <=? snd row) = true /\
       (snd row <=? snd top_platform) = true) /\
    (forall k row,
       (k < i)%nat ->
       nth_error [("GB"%string, 23.2); ("NES"%string, 29.08);
       ("Wii"%string, 57.34);
                  ("X360"%string, 57.34)] k = Some row ->
       (snd row <? snd top_platform) = true) /\
    (forall k row,
       (k < j)%nat ->
       nth_error [("GB"%string, 23.2); ("NES"%string, 29.08);
       ("Wii"%string, 57.34);
                  ("X360"%string, 57.34)] k = Some row ->
       (snd lowest_platform <? snd row) = true).
Proof.
  apply (proj2 pie_chart_top_and_lowest).
  - discriminate.
  - repeat constructor.
Defined.

End PieFloat.

(* ================================================================== *)
(** * regional_sales_by_genre_chart and sales_over_time_chart *)
(* ================================================================== *)

Lemma filter_map_const (T U : Type) (p : U -> bool) (h : T -> U) (c : bool)
  (l : list T) :
  (forall a, p (h a) = c) ->
  filter p (map h l) = if c then map h l else [].
Proof.
  intros H. induction l as [|a t IH]; simpl; [now destruct c|].
  rewrite H, IH. now destruct c.
Qed.

(** X19: in any arithmetic, the bars of [regional_sales_by_genre_chart]
    for one of the four regional columns are, genre by genre and in
    the order of the genres, the totals of that column per genre; no bar
    is drawn for the global sales; and the chart has four bars for each
    genre of the data. *)
Theorem melted_genre_sales_by_region :
  forall (F : Type) (A : PyFloat F) (data : list (SalesRecord F))
         (region : Region),
    map (fun bar => (fst (fst bar), snd bar))
        (filter (fun bar => Region_eqb (snd (fst bar)) region)
                (melted_genre_sales data)) =
      (if existsb (Region_eqb region) sales_columns
       then groupby_sum (@Genre F) (region_mapping region) data
       else []) /\
    filter (fun bar => Region_eqb (snd (fst bar)) Global_Sales_region)
           (melted_genre_sales data) = [] /\
    length (melted_genre_sales data) =
      (4 * length (group_keys (@Genre F) data))%nat.
Proof.
  intros F A data region.
  assert (Hid : forall l : list (string * F),
            map (fun bar : string * Region * F => (fst (fst bar), snd bar))
                (map (fun g => (fst g, region, snd g)) l) = l).
  { intros l. rewrite map_map. cbn [fst snd].
    rewrite (map_ext _ (fun g => g)); [apply map_id|now intros []]. }
  unfold melted_genre_sales, sales_columns. cbn [flat_map].
  rewrite app_nil_r. split; [|split].
  - rewrite !filter_app.
    rewrite !(@filter_map_const _ _
                (fun bar : string * Region * F =>
                   Region_eqb (snd (fst bar)) region)
                (fun g : string * F => (fst g, NA_Sales_region, snd g))
                (Region_eqb NA_Sales_region region)) by reflexivity.
    rewrite !(@filter_map_const _ _
                (fun bar : string * Region * F =>
                   Region_eqb (snd (fst bar)) region)
                (fun g : string * F => (fst g, EU_Sales_region, snd g))
                (Region_eqb EU_Sales_region region)) by reflexivity.
    rewrite !(@filter_map_const _ _
                (fun bar : string * Region * F =>
                   Region_eqb (snd (fst bar)) region)
                (fun g : string * F => (fst g, JP_Sales_region, snd g))
                (Region_eqb JP_Sales_region region)) by reflexivity.
    rewrite !(@filter_map_const _ _
                (fun bar : string * Region * F =>
                   Region_eqb (snd (fst bar)) region)
                (fun g : string * F => (fst g, Other_Sales_region, snd g))
                (Region_eqb Other_Sales_region region)) by reflexivity.
    destruct region; cbn [Region_eqb existsb orb app];
      rewrite ?app_nil_r; try reflexivity; apply Hid.
  - rewrite !filter_app.
    rewrite !(@filter_map_const _ _ _ _ false) by reflexivity. reflexivity.
  - rewrite !length_app, !length_map.
    unfold groupby_sum. rewrite !length_map. lia.
Qed.

(** X20: in any arithmetic, a row without a year, or without a sales
    figure in the selected column, is not among the rows that
    [sales_over_time_chart] plots and differences, wherever it stands in
    the table; and taking a row without a year out of the table changes
    nothing of what the page reports. *)
Theorem incomplete_rows_are_ignored :
  forall (F : Type) (A : PyFloat F)
         (before after : list (SalesRecord F)) (row : SalesRecord F)
         (selected_region : Region),
    fisnan (Year row) = true \/
    fisnan (region_mapping selected_region row) = true ->
    filtered_data (before ++ row :: after) selected_region =
      filtered_data (before ++ after) selected_region /\
    (fisnan (Year row) = true ->
     sales_over_time_chart (before ++ row :: after) selected_region =
     sales_over_time_chart (before ++ after) selected_region).
Proof.
  intros F A before after row region Hrow.
  assert (Hf : filtered_data (before ++ row :: after) region =
               filtered_data (before ++ after) region).
  { unfold filtered_data. rewrite !filter_app. cbn [filter].
    destruct Hrow as [H|H]; rewrite H; cbn [negb andb];
      [reflexivity|now rewrite andb_false_r]. }
  split; [exact Hf|].
  intros Hy. unfold sales_over_time_chart. rewrite Hf.
  rewrite !forallb_app. cbn [forallb]. rewrite Hy. reflexivity.
Qed.

Lemma incomplete_rows_are_ignored_witness :
  filtered_data
    ([year_row 2000%float 1%float] ++
     year_row nan 9%float :: [year_row 2001%float 3%float])
    NA_Sales_region =
  filtered_data ([year_row 2000%float 1%float] ++
                 [year_row 2001%float 3%float]) NA_Sales_region /\
  (fisnan (Year (year_row nan 9%float)) = true ->
   sales_over_time_chart
     ([year_row 2000%float 1%float] ++
      year_row nan 9%float :: [year_row 2001%float 3%float])
     NA_Sales_region =
   sales_over_time_chart ([year_row 2000%float 1%float] ++
                          [year_row 2001%float 3%float]) NA_Sales_region).
Proof.
  apply (@incomplete_rows_are_ignored float float_arith).
  left. reflexivity.
Defined.
